(** * Common-Integrations: the repository synchroniser and the Slack client

    A shallow embedding of
      - [src/integrations/git/git_clone.py]   (module [Git]),
      - [src/integrations/slack/slack.py]     (module [Slack]),
      - [src/integrations/slack.py]           (module [SlackLegacy]),
    as programs of a state-and-exception monad over an explicit model of
    what they act on: the file system with its git working copies, the
    remote repositories, the recorder, and the Slack web client. *)

From Stdlib Require Import Ascii String.
From stdpp Require Import gmap strings list fin_maps.

Open Scope string_scope.
Open Scope list_scope.
Open Scope stdpp_scope.

(** ** Python exceptions and results *)

Inductive exn : Type :=
| GitCommandError              (* git.exc.GitCommandError *)
| InvalidGitRepositoryError    (* git.exc.InvalidGitRepositoryError *)
| NoSuchPathError              (* git.exc.NoSuchPathError *)
| IndexError
| FileNotFoundError
| AttributeError
| SlackApiError (msg : string) (* slack_sdk.errors.SlackApiError *)
| ValueError (msg : string)
| OtherError (msg : string).

Global Instance exn_eq_dec : EqDecision exn.
Proof. solve_decision. Defined.

Inductive result (A : Type) : Type :=
| Ret (a : A)
| Raise (e : exn).
Arguments Ret {A} a.
Arguments Raise {A} e.

(** ** The monad of a Python function over a world [St] *)

Definition M (St A : Type) : Type := St -> result A * St.

Global Instance M_ret {St} : MRet (M St) :=
  fun A a s => (Ret a, s).

Global Instance M_bind {St} : MBind (M St) :=
  fun A B k m s =>
    match m s with
    | (Ret a, s') => k a s'
    | (Raise e, s') => (Raise e, s')
    end.

Definition raise {St A} (e : exn) : M St A := fun s => (Raise e, s).

(** [try: m except E: h] where [handler e] is [Some h] exactly for the
    exceptions the clause names; any other exception propagates. *)
Definition try_except {St A} (m : M St A) (handler : exn -> option (M St A)) : M St A :=
  fun s =>
    match m s with
    | (Ret a, s') => (Ret a, s')
    | (Raise e, s') =>
        match handler e with
        | Some h => h s'
        | None => (Raise e, s')
        end
    end.

(** A primitive of the world: its result and the world after it. *)
Definition effect {St A} (f : St -> result A * St) : M St A := f.

Definition gets {St A} (f : St -> A) : M St A := fun s => (Ret (f s), s).
Definition modify {St} (f : St -> St) : M St unit := fun s => (Ret tt, f s).

Definition outcome {St A} (r : result A * St) : result A := fst r.
Definition final {St A} (r : result A * St) : St := snd r.

(** ** Python strings *)

(** [s.startswith("#")] *)
Definition startswith_hash (s : string) : bool :=
  match s with
  | String c _ => bool_decide (c = "#"%char)
  | EmptyString => false
  end.

(** [s[1:]] *)
Definition drop_first (s : string) : string :=
  match s with
  | String _ rest => rest
  | EmptyString => EmptyString
  end.

(** [s.split(sep)] for a one-character separator: never an empty list. *)
Fixpoint split (sep : ascii) (s : string) : list string :=
  match s with
  | EmptyString => [EmptyString]
  | String c rest =>
      if decide (c = sep) then EmptyString :: split sep rest
      else match split sep rest with
           | seg :: segs => String c seg :: segs
           | [] => [String c EmptyString]
           end
  end.

(** [sep.join(l)] *)
Fixpoint join (sep : string) (l : list string) : string :=
  match l with
  | [] => EmptyString
  | x :: rest =>
      match rest with
      | [] => x
      | _ => x +:+ sep +:+ join sep rest
      end
  end.

(** [l[-1]]: IndexError on an empty list. *)
Definition getitem_last {St} (l : list string) : M St string :=
  match last l with
  | Some x => mret x
  | None => raise IndexError
  end.

(** Truth value of an [Optional[str]]: [None] and [""] are false. *)
Definition truthy (v : option string) : bool :=
  match v with
  | Some EmptyString => false
  | Some _ => true
  | None => false
  end.

(** [c in s] for a character. *)
Fixpoint contains_char (c : ascii) (s : string) : bool :=
  match s with
  | EmptyString => false
  | String d rest => bool_decide (d = c) || contains_char c rest
  end.

(** * src/integrations/git/git_clone.py *)

Module Git.

(** ** What the synchroniser acts on

    The code drives GitPython ([Repo], [repo.refs], [repo.heads],
    [Head.checkout], [HEAD.reset], [Repo.clone_from]), [os.path.exists] and
    [shutil.rmtree].  They are modelled by what they do to the state below:
      - [Repo(path)] raises [NoSuchPathError] on a missing path and
        [InvalidGitRepositoryError] on a path that is not a working copy;
        neither is a [GitCommandError];
      - [repo.refs] lists every reference under [refs/], tags and remote
        references included, by short name; [repo.heads] lists the local
        branches only, and indexing it by an unknown name raises
        [IndexError];
      - [git checkout] and [git reset --hard] act on the working copy and
        contact no remote; [git clone] is the only operation that reads the
        remote repository.
    Console output is kept, in order, in [stdout]. *)

(** Commits are opaque identifiers. *)
Definition commit : Type := nat.

(** [HEAD] names a branch or is detached at a commit. *)
Inductive head_ref : Type :=
| OnBranch (b : string)
| Detached (c : commit).

Global Instance head_ref_eq_dec : EqDecision head_ref.
Proof. solve_decision. Defined.

(** Index and working tree: [Clean] when both agree with the commit [HEAD]
    resolves to, otherwise modified; [conflicting] says whether the local
    modifications would be overwritten by switching to another branch
    (git then refuses the checkout). *)
Inductive worktree : Type :=
| Clean
| Modified (conflicting : bool).

(** A working copy, by the reference name spaces GitPython lists:
    [refs/heads/*] ([repo.heads]), [refs/tags/*] and [refs/remotes/*].
    Keys are the short names GitPython reports ([Reference.name]): ["main"]
    for [refs/heads/main] and for [refs/tags/main], ["origin/main"] for
    [refs/remotes/origin/main]. *)
Record LocalRepo : Type := mkLocalRepo {
  heads : gmap string commit;
  tags : gmap string commit;
  remotes : gmap string commit;
  HEAD : head_ref;
  tree : worktree
}.

(** What a path of the file system holds, when it exists: a working copy,
    or something that is not one, for which opening it with [Repo(path)]
    raises [open_error] (GitPython raises [InvalidGitRepositoryError]). *)
Inductive Node : Type :=
| Plain (open_error : exn)
| RepoDir (r : LocalRepo).

(** A remote repository: the branch its HEAD names, its branches, its tags. *)
Record RemoteRepo : Type := mkRemoteRepo {
  r_default : string;
  r_branches : gmap string commit;
  r_tags : gmap string commit
}.

(** Modelled from the spec: [utils.replay.replay.Replay] is not under src/.
    The recording collaborator exposes [isActive], [isRecording] and
    [archiveSource(path)]; the archival may fail.  [replay w = None] when no
    instance exists; [archive_error r p] is the exception
    [compress_source(p)] raises, if any. *)
Record Replay : Type := mkReplay {
  recording : bool;
  archive_error : string -> option exn
}.

(** The effects issued, in order, whether they succeeded or raised. *)
Inductive Op : Type :=
| OpRmtree (path : string)
| OpClone (source path : string)
| OpCheckout (path branch : string)
| OpReset (path rev : string)
| OpArchive (path : string).

Global Instance Op_eq_dec : EqDecision Op.
Proof. solve_decision. Defined.

Record World : Type := mkWorld {
  fs : gmap string Node;               (* existing paths *)
  remote : gmap string RemoteRepo;     (* reachable sources, by locator *)
  replay : option Replay;
  ops : list Op;
  stdout : list string
}.

Definition set_fs (f : gmap string Node -> gmap string Node) (w : World) : World :=
  {| fs := f (fs w); remote := remote w; replay := replay w;
     ops := ops w; stdout := stdout w |}.

Definition add_op (o : Op) (w : World) : World :=
  {| fs := fs w; remote := remote w; replay := replay w;
     ops := ops w ++ [o]; stdout := stdout w |}.

Definition add_out (s : string) (w : World) : World :=
  {| fs := fs w; remote := remote w; replay := replay w;
     ops := ops w; stdout := stdout w ++ [s] |}.

Definition log (o : Op) : M World unit := modify (add_op o).

(** [print(s)] *)
Definition print (s : string) : M World unit := modify (add_out s).

(** ** The capabilities the code calls *)

(** [os.path.exists(path)] *)
Definition os_path_exists (path : string) : M World bool :=
  gets (fun w => bool_decide (is_Some (fs w !! path))).

(** [Repo(path)]: a handle on the working copy at [path] (the path itself).
    GitPython raises [NoSuchPathError] when the path does not exist and the
    node's [open_error] when it is not a working copy. *)
Definition Repo (path : string) : M World string :=
  fun w =>
    match fs w !! path with
    | None => (Raise NoSuchPathError, w)
    | Some (Plain e) => (Raise e, w)
    | Some (RepoDir _) => (Ret path, w)
    end.

(** [repr(repo)] of a [Repo] object. *)
Definition Repo_repr (path : string) : string :=
  "<git.repo.base.Repo '" +:+ path +:+ "/.git'>".

Definition repo_at (path : string) (w : World) : option LocalRepo :=
  match fs w !! path with
  | Some (RepoDir r) => Some r
  | _ => None
  end.

(** The names [repo.refs] lists: heads, tags and remote references. *)
Definition ref_names (r : LocalRepo) : gset string :=
  dom (heads r) ∪ dom (tags r) ∪ dom (remotes r).

(** [name in repo.refs] *)
Definition refs_contains (h : string) (name : string) : M World bool :=
  gets (fun w =>
    match repo_at h w with
    | Some r => bool_decide (name ∈ ref_names r)
    | None => false
    end).

(** [repo.heads[name]]: IndexError when no head has that name. *)
Definition heads_getitem (h : string) (name : string) : M World string :=
  fun w =>
    match repo_at h w with
    | Some r =>
        match heads r !! name with
        | Some _ => (Ret name, w)
        | None => (Raise IndexError, w)
        end
    | None => (Raise IndexError, w)
    end.

(** [head.checkout()], i.e. [git checkout <branch>]. *)
Definition do_checkout (b : string) (r : LocalRepo) : option LocalRepo :=
  match heads r !! b with
  | None => None
  | Some _ =>
      if decide (HEAD r = OnBranch b) then Some r
      else match tree r with
           | Modified true => None
           | t => Some {| heads := heads r; tags := tags r; remotes := remotes r;
                         HEAD := OnBranch b; tree := t |}
           end
  end.

Definition checkout (h : string) (b : string) : M World unit :=
  log (OpCheckout h b);;
  effect (fun w =>
    match repo_at h w ≫= do_checkout b with
    | Some r' => (Ret tt, set_fs <[h := RepoDir r']> w)
    | None => (Raise GitCommandError, w)
    end).

(** What git resolves a short revision name to: a tag, else a head, else a
    remote reference. *)
Definition rev_parse (r : LocalRepo) (rev : string) : option commit :=
  match tags r !! rev with
  | Some c => Some c
  | None =>
      match heads r !! rev with
      | Some c => Some c
      | None => remotes r !! rev
      end
  end.

(** [repo.head.reset(rev, index=True, working_tree=True)], i.e.
    [git reset --hard <rev>]: the current branch (or the detached HEAD) moves
    to the commit, index and working tree follow. *)
Definition do_reset (rev : string) (r : LocalRepo) : option LocalRepo :=
  match rev_parse r rev with
  | None => None
  | Some c =>
      Some match HEAD r with
           | OnBranch b =>
               {| heads := <[b := c]> (heads r); tags := tags r;
                  remotes := remotes r; HEAD := OnBranch b; tree := Clean |}
           | Detached _ =>
               {| heads := heads r; tags := tags r;
                  remotes := remotes r; HEAD := Detached c; tree := Clean |}
           end
  end.

Definition head_reset (h : string) (rev : string) : M World unit :=
  log (OpReset h rev);;
  effect (fun w =>
    match repo_at h w ≫= do_reset rev with
    | Some r' => (Ret tt, set_fs <[h := RepoDir r']> w)
    | None => (Raise GitCommandError, w)
    end).

(** [shutil.rmtree(path)] *)
Definition shutil_rmtree (path : string) : M World unit :=
  log (OpRmtree path);;
  effect (fun w =>
    match fs w !! path with
    | Some _ => (Ret tt, set_fs (delete path) w)
    | None => (Raise FileNotFoundError, w)
    end).

(** The working copy [git clone] leaves: the remote's default branch checked
    out (unborn when the remote does not have it), every remote branch under
    [origin/], the remote's tags. *)
Definition fresh_clone (rr : RemoteRepo) : LocalRepo :=
  {| heads := match r_branches rr !! r_default rr with
              | Some c => {[ r_default rr := c ]}
              | None => ∅
              end;
     tags := r_tags rr;
     remotes := kmap (String.append "origin/") (r_branches rr);
     HEAD := OnBranch (r_default rr);
     tree := Clean |}.

(** [Repo.clone_from(source, path)]: git refuses an unreachable source and
    an existing destination. *)
Definition clone_from (source path : string) : M World string :=
  log (OpClone source path);;
  effect (fun w =>
    match remote w !! source, fs w !! path with
    | Some rr, None => (Ret path, set_fs <[path := RepoDir (fresh_clone rr)]> w)
    | _, _ => (Raise GitCommandError, w)
    end).

(** [Replay.instance_exists()] *)
Definition Replay_instance_exists : M World bool :=
  gets (fun w => bool_decide (is_Some (replay w))).

(** [Replay.get_instance().is_recording()] *)
Definition Replay_is_recording : M World bool :=
  gets (fun w => match replay w with Some r => recording r | None => false end).

(** [Replay.get_instance().compress_source(path)] *)
Definition Replay_compress_source (path : string) : M World unit :=
  log (OpArchive path);;
  effect (fun w =>
    match replay w ≫= (fun r => archive_error r path) with
    | Some e => (Raise e, w)
    | None => (Ret tt, w)
    end).

(** ** The program *)

(** [branch_exists], lines 8-16. *)
Definition branch_exists (repo_path branch_name : string) : M World bool :=
  try_except
    (repo ← Repo repo_path;
     refs_contains repo branch_name)
    (fun e =>
       match e with
       | GitCommandError =>
           Some (print ("Error: Unable to check branch '" +:+ branch_name
                        +:+ "' in repository at '" +:+ repo_path +:+ "'");;
                 mret false)
       | _ => None
       end).

(** Lines 29-30: the local path of a source. *)
Definition repo_path_of (repo : string) : M World string :=
  repo_name ← getitem_last (split "/" repo);
  mret ("/tmp/" +:+ repo_name).

(** Lines 33-58: reuse the working copy at [repo_path] or clone anew. *)
Definition sync (repo repo_path : string) : M World unit :=
  path_exists ← os_path_exists repo_path;
  if path_exists : bool then
    has_main ← branch_exists repo_path "main";
    if has_main : bool then
      print ("Using existing repository at " +:+ repo_path);;
      repo' ← Repo repo_path;
      main_branch ← heads_getitem repo' "main";
      checkout repo' main_branch;;
      head_reset repo' "origin/main";;
      print "Reset to main branch and pulled latest changes!"
    else
      has_master ← branch_exists repo_path "master";
      if has_master : bool then
        print ("Using existing repository at " +:+ repo_path);;
        repo' ← Repo repo_path;
        master_branch ← heads_getitem repo' "master";
        checkout repo' master_branch;;
        head_reset repo' "origin/master";;
        print "Reset to master branch and pulled latest changes!"
      else
        print ("Repository at " +:+ repo_path
               +:+ " does not have main or master branch");;
        print ("Cloning repository from " +:+ repo);;
        shutil_rmtree repo_path;;
        repo' ← clone_from repo repo_path;
        print ("Cloned repository from " +:+ Repo_repr repo'
               +:+ " to " +:+ repo_path +:+ "!")
  else
    print ("Cloning repository from " +:+ repo +:+ " to " +:+ repo_path);;
    repo' ← clone_from repo repo_path;
    print ("Cloned repository from " +:+ Repo_repr repo'
           +:+ " to " +:+ repo_path +:+ "!").

(** Lines 60-61: the recording hook. *)
Definition recording_hook (repo_path : string) : M World unit :=
  inst ← Replay_instance_exists;
  if inst : bool then
    rec ← Replay_is_recording;
    if rec : bool then Replay_compress_source repo_path else mret tt
  else mret tt.

(** [git_temp_clone], lines 19-63. *)
Definition git_temp_clone (repo : string) : M World string :=
  repo_path ← repo_path_of repo;
  sync repo repo_path;;
  recording_hook repo_path;;
  mret repo_path.

(** ** Observations *)

(** The commit the checked-out branch points to. *)
Definition tip (r : LocalRepo) : option commit :=
  match HEAD r with
  | OnBranch b => heads r !! b
  | Detached c => Some c
  end.

(** The local path of a source, as lines 29-30 compute it. *)
Definition local_path (repo : string) : string :=
  "/tmp/" +:+ default "" (last (split "/" repo)).

(** [seg] is the last "/"-separated segment of [s]. *)
Definition last_segment_of (s seg : string) : Prop :=
  contains_char "/" seg = false /\
  (s = seg \/ exists pre, s = pre +:+ "/" +:+ seg).

(** The exception the hook raises on [path] in [w], if any. *)
Definition hook_error (w : World) (path : string) : option exn :=
  match replay w with
  | Some r => if recording r then archive_error r path else None
  | None => None
  end.

End Git.

(** * The Slack web client both Slack classes drive *)

Module WebClient.

(** An entry of [conversations_list()["channels"]]. *)
Record Channel : Type := mkChannel {
  name : string;
  id : string
}.

(** The requests sent, in order. *)
Inductive Call : Type :=
| ConversationsList
| ChatPostMessage (channel text : string) (thread_ts : option string)
| ChatUpdate (channel : string) (ts : option string) (text : string).

Global Instance Call_eq_dec : EqDecision Call.
Proof. solve_decision. Defined.

(** The client with the service behind it: what the service answers to a
    request depends on the request and on how many requests came before;
    an answer is a response or an exception. *)
Record Client : Type := mkClient {
  calls : list Call;
  conversations_list_at : nat -> result (list Channel);
  chat_postMessage_at : nat -> string -> string -> option string -> result (option string);
  chat_update_at : nat -> string -> option string -> string -> result bool;
  stdout : list string
}.

Definition sent (c : Call) (w : Client) : Client :=
  {| calls := calls w ++ [c];
     conversations_list_at := conversations_list_at w;
     chat_postMessage_at := chat_postMessage_at w;
     chat_update_at := chat_update_at w;
     stdout := stdout w |}.

Definition print (s : string) : M Client unit :=
  modify (fun w =>
    {| calls := calls w;
       conversations_list_at := conversations_list_at w;
       chat_postMessage_at := chat_postMessage_at w;
       chat_update_at := chat_update_at w;
       stdout := stdout w ++ [s] |}).

(** [client.conversations_list()["channels"]] *)
Definition conversations_list : M Client (list Channel) :=
  effect (fun w =>
    (conversations_list_at w (length (calls w)), sent ConversationsList w)).

(** [client.chat_postMessage(channel=, text=, thread_ts=)["ts"]] *)
Definition chat_postMessage (channel text : string) (thread_ts : option string)
  : M Client (option string) :=
  effect (fun w =>
    (chat_postMessage_at w (length (calls w)) channel text thread_ts,
     sent (ChatPostMessage channel text thread_ts) w)).

(** [client.chat_update(channel=, ts=, text=)["ok"]] *)
Definition chat_update (channel : string) (ts : option string) (text : string)
  : M Client bool :=
  effect (fun w =>
    (chat_update_at w (length (calls w)) channel ts text,
     sent (ChatUpdate channel ts text) w)).

(** The loop over the channels: the id of the first channel of that name. *)
Fixpoint find_channel (channel_name : string) (channels : list Channel)
  : option string :=
  match channels with
  | [] => None
  | channel :: rest =>
      if decide (name channel = channel_name) then Some (id channel)
      else find_channel channel_name rest
  end.

(** The channel a request posts to. *)
Definition post_channel (c : Call) : option string :=
  match c with
  | ChatPostMessage channel _ _ => Some channel
  | _ => None
  end.

End WebClient.

(** * src/integrations/slack/slack.py *)

Module Slack.
Import WebClient.

(** [_get_channel_id], lines 163-177. *)
Definition _get_channel_id (channel_name : string) : M Client (option string) :=
  let channel_name :=
    if startswith_hash channel_name then drop_first channel_name
    else channel_name in
  channels ← conversations_list;
  mret (find_channel channel_name channels).

(** [_check_channel_exists], lines 179-183. *)
Definition _check_channel_exists (channel_name : string) : M Client bool :=
  channel_id ← _get_channel_id channel_name;
  mret (bool_decide (channel_id ≠ None)).

(** [send_message], lines 41-62. *)
Definition send_message (channel_name text : string) : M Client (option string) :=
  found ← _check_channel_exists channel_name;
  if negb found then
    raise (ValueError ("Channel '" +:+ channel_name +:+ "' does not exist"))
  else
    let channel_name :=
      if startswith_hash channel_name then drop_first channel_name
      else channel_name in
    response_ts ← chat_postMessage channel_name text None;
    mret response_ts.

(** [send_thread_reply], lines 96-127.  [warnings] has no attribute
    [warning], so line 125 raises AttributeError. *)
Definition send_thread_reply (channel_name : string) (thread_ts : option string)
  (text : string) : M Client (option string) :=
  let channel_name :=
    if startswith_hash channel_name then drop_first channel_name
    else channel_name in
  found ← _check_channel_exists channel_name;
  if negb found then
    raise (ValueError ("Channel '" +:+ channel_name +:+ "' does not exist"))
  else if negb (truthy thread_ts) then
    raise (ValueError "thread_ts is required")
  else
    response_ts ← chat_postMessage channel_name text thread_ts;
    match response_ts with
    | None => raise AttributeError
    | Some ts => mret (Some ts)
    end.

(** [edit_message], lines 129-161. *)
Definition edit_message (channel_name : string) (message_ts : option string)
  (new_text : string) : M Client bool :=
  let channel_name :=
    if startswith_hash channel_name then drop_first channel_name
    else channel_name in
  found ← _check_channel_exists channel_name;
  if negb found then
    raise (ValueError ("Channel '" +:+ channel_name +:+ "' does not exist"))
  else if negb (truthy message_ts) then
    raise (ValueError "message_ts is required")
  else
    channel_id ← _get_channel_id channel_name;
    if negb (truthy channel_id) then
      print ("Error: Channel '" +:+ channel_name +:+ "' not found.");;
      mret false
    else
      response_ok ← chat_update (default "" channel_id) message_ts new_text;
      mret response_ok.

End Slack.

(** * src/integrations/slack.py *)

Module SlackLegacy.
Import WebClient.

(** [send_message], lines 39-60. *)
Definition send_message (channel_name text : string) : M Client (option string) :=
  let channel_name :=
    if startswith_hash channel_name then drop_first channel_name
    else channel_name in
  try_except
    (response_ts ← chat_postMessage channel_name text None;
     mret response_ts)
    (fun e =>
       match e with
       | SlackApiError msg =>
           Some (print ("Error sending message to Slack: " +:+ msg);;
                 mret None)
       | _ => None
       end).

End SlackLegacy.

(** * Closed forms of the synchroniser's paths *)

Module GitSpec.
Import Git.

Definition clone_result (s p : string) (w : World) : result unit * World :=
  let w1 := add_op (OpClone s p) w in
  match remote w !! s with
  | Some rr =>
      (Ret tt,
       add_out ("Cloned repository from " +:+ Repo_repr p +:+ " to " +:+ p +:+ "!")
         (set_fs <[p := RepoDir (fresh_clone rr)]> w1))
  | None => (Raise GitCommandError, w1)
  end.

Definition reclone_result (s p : string) (w : World) : result unit * World :=
  clone_result s p
    (set_fs (delete p)
       (add_op (OpRmtree p)
          (add_out ("Cloning repository from " +:+ s)
             (add_out ("Repository at " +:+ p +:+ " does not have main or master branch") w)))).

Definition reuse_result (p b : string) (r : LocalRepo) (w : World) : result unit * World :=
  let w0 := add_out ("Using existing repository at " +:+ p) w in
  match heads r !! b with
  | None => (Raise IndexError, w0)
  | Some _ =>
      let w1 := add_op (OpCheckout p b) w0 in
      match do_checkout b r with
      | None => (Raise GitCommandError, w1)
      | Some r1 =>
          let w2 := add_op (OpReset p ("origin/" +:+ b)) (set_fs <[p := RepoDir r1]> w1) in
          match do_reset ("origin/" +:+ b) r1 with
          | None => (Raise GitCommandError, w2)
          | Some r2 =>
              (Ret tt,
               add_out ("Reset to " +:+ b +:+ " branch and pulled latest changes!")
                 (set_fs <[p := RepoDir r2]> w2))
          end
      end
  end.

Definition unable (p b : string) : string :=
  "Error: Unable to check branch '" +:+ b +:+ "' in repository at '" +:+ p +:+ "'".

Definition sync_result (s p : string) (w : World) : result unit * World :=
  match fs w !! p with
  | None =>
      clone_result s p
        (add_out ("Cloning repository from " +:+ s +:+ " to " +:+ p) w)
  | Some (Plain GitCommandError) =>
      reclone_result s p (add_out (unable p "master") (add_out (unable p "main") w))
  | Some (Plain e) => (Raise e, w)
  | Some (RepoDir r) =>
      if bool_decide ("main" ∈ ref_names r) then reuse_result p "main" r w
      else if bool_decide ("master" ∈ ref_names r) then reuse_result p "master" r w
      else reclone_result s p w
  end.

(** The recording hook. *)
Definition hook_result (p : string) (w : World) : result unit * World :=
  match replay w with
  | Some r =>
      if recording r then
        (match archive_error r p with Some e => Raise e | None => Ret tt end,
         add_op (OpArchive p) w)
      else (Ret tt, w)
  | None => (Ret tt, w)
  end.

(** A recorder exists and is recording. *)
Definition hook_active (w : World) : bool :=
  match replay w with
  | Some r => recording r
  | None => false
  end.

(** The working copy after [git checkout b] and [git reset --hard] to the
    commit [t]. *)
Definition reset_to (b : string) (t : commit) (r : LocalRepo) : LocalRepo :=
  {| heads := <[b := t]> (heads r); tags := tags r; remotes := remotes r;
     HEAD := OnBranch b; tree := Clean |}.

(** Git refuses an unforced checkout of the branch [b]: another branch (or a
    detached HEAD) is checked out and local modifications conflict with the
    switch. *)
Definition checkout_refused (b : string) (r : LocalRepo) : Prop :=
  HEAD r <> OnBranch b /\ tree r = Modified true.


(** No tag of the remote is named like a branch the synchroniser looks for
    or resets to. *)
Definition plain_tags (rr : RemoteRepo) : Prop :=
  r_tags rr !! "main" = None /\ r_tags rr !! "master" = None /\
  r_tags rr !! "origin/main" = None /\ r_tags rr !! "origin/master" = None.

End GitSpec.

(** * Scenarios *)

Module Scenario.
Import Git.

Definition source : string := "https://example.com/org/repo".

Definition quiet (files : gmap string Node) (rr : RemoteRepo) : World :=
  {| fs := files; remote := {[ source := rr ]}; replay := None;
     ops := []; stdout := [] |}.

(** A remote whose only branch is [main]. *)
Definition main_remote (c : commit) : RemoteRepo :=
  {| r_default := "main"; r_branches := {[ "main" := c ]}; r_tags := ∅ |}.

(** No local state. *)
Definition empty_world : World := quiet ∅ (main_remote 1).

(** A working copy cloned when the remote's [main] was at commit 1; the
    remote has moved on to commit 2 since. *)
Definition stale_repo : LocalRepo :=
  {| heads := {[ "main" := 1 ]}; tags := ∅;
     remotes := {[ "origin/main" := 1 ]};
     HEAD := OnBranch "main"; tree := Clean |}.
Definition stale_world : World :=
  quiet {[ "/tmp/repo" := RepoDir stale_repo ]} (main_remote 2).

(** A working copy with the branch [feature-x] only. *)
Definition feature_repo : LocalRepo :=
  {| heads := {[ "feature-x" := 5 ]}; tags := ∅;
     remotes := {[ "origin/feature-x" := 5 ]};
     HEAD := OnBranch "feature-x"; tree := Clean |}.
Definition feature_world : World :=
  quiet {[ "/tmp/repo" := RepoDir feature_repo ]} (main_remote 1).



(** A working copy with [master] only, behind its [origin/master]. *)
Definition master_repo : LocalRepo :=
  {| heads := {[ "master" := 4 ]}; tags := ∅;
     remotes := {[ "origin/master" := 6 ]};
     HEAD := OnBranch "master"; tree := Clean |}.
Definition master_world : World :=
  quiet {[ "/tmp/repo" := RepoDir master_repo ]} (main_remote 2).

(** The local path is a directory that is not a working copy. *)
Definition plain_world : World :=
  quiet {[ "/tmp/repo" := Plain InvalidGitRepositoryError ]} (main_remote 1).

(** No local state, and a recorder that records and whose archival fails. *)
Definition failing_recorder : Replay :=
  {| recording := true;
     archive_error := fun _ => Some (OtherError "archive failed") |}.
Definition recorded_world : World :=
  {| fs := ∅; remote := {[ source := main_remote 1 ]};
     replay := Some failing_recorder; ops := []; stdout := [] |}.

(** No local state; the remote's default branch is [develop] and it has a
    tag named [main]. *)
Definition tagged_remote : RemoteRepo :=
  {| r_default := "develop"; r_branches := {[ "develop" := 7 ]};
     r_tags := {[ "main" := 3 ]} |}.
Definition tagged_world : World := quiet ∅ tagged_remote.

End Scenario.


(** * The Slack methods: the shared idiom and some services *)

Module SlackSpec.
Import WebClient.

(** One leading "#" removed, as every method does on entry. *)
Definition strip_hash (s : string) : string :=
  if startswith_hash s then drop_first s else s.

(** A service that lists [listing] on every call and accepts every post
    and every update. *)
Definition service (listing : list Channel) : Client :=
  {| calls := [];
     conversations_list_at := fun _ => Ret listing;
     chat_postMessage_at := fun _ _ _ _ => Ret (Some "1700000000.000100");
     chat_update_at := fun _ _ _ _ => Ret true;
     stdout := [] |}.

Definition usual_client : Client :=
  service [mkChannel "general" "C01"; mkChannel "eval-results" "C02"].

(** A listing with a channel whose name begins with "#". *)
Definition hash_named_client : Client :=
  service [mkChannel "#general" "C03"].

(** A listing with a channel whose id is the empty string. *)
Definition blank_id_client : Client :=
  service [mkChannel "general" ""].

(** A service whose channel listing fails. *)
Definition down_client : Client :=
  {| calls := [];
     conversations_list_at := fun _ => Raise (SlackApiError "ratelimited");
     chat_postMessage_at := fun _ _ _ _ => Ret (Some "1700000000.000100");
     chat_update_at := fun _ _ _ _ => Ret true;
     stdout := [] |}.

End SlackSpec.

(** * src/integrations/slack/slack.py: [send_file] *)

Module SlackFile.
Import WebClient.

(** A [files_upload_v2] request: [channel] is the channel id given, None
    when the caller had none. *)
Record Upload : Type := mkUpload {
  up_channel : option string;
  up_file : string;
  up_comment : string
}.

(** The client with its uploads: the requests of [WebClient], the uploads
    sent, in order, and what the service answers to an upload, given the
    number of requests sent before it: the value of
    [response["file"]["timestamp"]], or an exception. *)
Record FileClient : Type := mkFileClient {
  client : Client;
  uploads : list Upload;
  files_upload_v2_at : nat -> Upload -> result (option string)
}.

(** A method of the client run on the client with uploads. *)
Definition on_client {A} (m : M Client A) : M FileClient A :=
  fun w =>
    (outcome (m (client w)),
     {| client := final (m (client w));
        uploads := uploads w;
        files_upload_v2_at := files_upload_v2_at w |}).

(** [client.files_upload_v2(channel=, file=, initial_comment=)["file"]["timestamp"]] *)
Definition files_upload_v2 (channel : option string) (file initial_comment : string)
  : M FileClient (option string) :=
  effect (fun w =>
    (files_upload_v2_at w (length (calls (client w)) + length (uploads w))
       (mkUpload channel file initial_comment),
     {| client := client w;
        uploads := uploads w ++ [mkUpload channel file initial_comment];
        files_upload_v2_at := files_upload_v2_at w |})).

(** [Slack.send_file], lines 64-94. *)
Definition send_file (channel_name file_path initial_comment : string)
  : M FileClient (option string) :=
  let channel_name :=
    if startswith_hash channel_name then drop_first channel_name
    else channel_name in
  found ← on_client (Slack._check_channel_exists channel_name);
  if negb found then
    raise (ValueError ("Channel '" +:+ channel_name +:+ "' does not exist"))
  else
    channel_id ← on_client (Slack._get_channel_id channel_name);
    file_timestamp ← files_upload_v2 channel_id file_path initial_comment;
    mret file_timestamp.

End SlackFile.

(** * src/integrations/slack.py: the other methods *)

Module SlackLegacyRest.
Import WebClient SlackFile.

Section Repr.

(** [repr] of a list of [str], the text of the line [_get_channel_id]
    prints. *)
Variable repr_names : list string -> string.

(** [_get_channel_id], lines 83-113. *)
Definition _get_channel_id (channel_name : string) : M Client (option string) :=
  let channel_name :=
    if startswith_hash channel_name then drop_first channel_name
    else channel_name in
  try_except
    (channels ← conversations_list;
     print (repr_names (name <$> channels));;
     mret (find_channel channel_name channels))
    (fun e =>
       match e with
       | SlackApiError msg =>
           Some (print ("Error getting channel ID: " +:+ msg);;
                 mret None)
       | _ => None
       end).

(** [send_file], lines 62-81: returns None. *)
Definition send_file (channel_name file_path initial_comment : string)
  : M FileClient unit :=
  try_except
    (channel_id ← on_client (_get_channel_id channel_name);
     files_upload_v2 channel_id file_path initial_comment;;
     mret tt)
    (fun e =>
       match e with
       | SlackApiError msg =>
           Some (on_client (print ("Error sending file to Slack: " +:+ msg)))
       | _ => None
       end).

(** [edit_message], lines 141-170. *)
Definition edit_message (channel_name : string) (message_ts : option string)
  (new_text : string) : M Client bool :=
  let channel_name :=
    if startswith_hash channel_name then drop_first channel_name
    else channel_name in
  try_except
    (channel_id ← _get_channel_id channel_name;
     if negb (truthy channel_id) then
       print ("Error: Channel '" +:+ channel_name +:+ "' not found.");;
       mret false
     else
       response_ok ← chat_update (default "" channel_id) message_ts new_text;
       mret response_ok)
    (fun e =>
       match e with
       | SlackApiError msg =>
           Some (print ("Error editing message in Slack: " +:+ msg);;
                 mret false)
       | _ => None
       end).

End Repr.

(** [send_thread_reply], lines 115-139. *)
Definition send_thread_reply (channel_name : string) (thread_ts : option string)
  (text : string) : M Client (option string) :=
  let channel_name :=
    if startswith_hash channel_name then drop_first channel_name
    else channel_name in
  try_except
    (response_ts ← chat_postMessage channel_name text thread_ts;
     mret response_ts)
    (fun e =>
       match e with
       | SlackApiError msg =>
           Some (print ("Error sending thread reply to Slack: " +:+ msg);;
                 mret None)
       | _ => None
       end).

End SlackLegacyRest.

(** * Further scenarios of the synchroniser *)

Module MoreScenarios.
Import Git Scenario.

(** A working copy on [develop] that has a tag named [main] and a branch
    [master]. *)
Definition tagged_repo : LocalRepo :=
  {| heads := {[ "develop" := 7; "master" := 4 ]};
     tags := {[ "main" := 3 ]};
     remotes := {[ "origin/develop" := 7; "origin/master" := 4 ]};
     HEAD := OnBranch "develop"; tree := Clean |}.
Definition tagged_copy_world : World :=
  quiet {[ "/tmp/repo" := RepoDir tagged_repo ]} (main_remote 1).

(** The working copy with [feature-x] only, beside another directory, and
    a source that cannot be reached. *)
Definition offline_world : World :=
  {| fs := {[ "/tmp/repo" := RepoDir feature_repo;
              "/tmp/notes" := Plain InvalidGitRepositoryError ]};
     remote := ∅; replay := None; ops := []; stdout := [] |}.

(** Another source whose last segment is [repo] too. *)
Definition other_source : string := "git@example.org:team/repo".

(** A recorder that exists, does not record, and would fail if asked. *)
Definition idle_recorder : Replay :=
  {| recording := false;
     archive_error := fun _ => Some (OtherError "archive failed") |}.
Definition idle_world : World :=
  {| fs := ∅; remote := {[ source := main_remote 1 ]};
     replay := Some idle_recorder; ops := []; stdout := [] |}.

(** A working copy with a branch [main] and no remote reference. *)
Definition local_only_repo : LocalRepo :=
  {| heads := {[ "main" := 1; "work" := 9 ]}; tags := ∅; remotes := ∅;
     HEAD := OnBranch "work"; tree := Clean |}.
Definition local_only_world : World :=
  quiet {[ "/tmp/repo" := RepoDir local_only_repo ]} (main_remote 2).

End MoreScenarios.

(** * The operations of a call, by what they work on *)

Module OpSpec.
Import Git.

(** The path an operation works on. *)
Definition op_path (o : Op) : string :=
  match o with
  | OpRmtree path => path
  | OpClone _ path => path
  | OpCheckout path _ => path
  | OpReset path _ => path
  | OpArchive path => path
  end.

(** The source an operation reads, for a clone. *)
Definition op_source (o : Op) : option string :=
  match o with
  | OpClone source _ => Some source
  | _ => None
  end.

(** [o] works on the path [p] and reads no source but [s]. *)
Definition confined (s p : string) (o : Op) : Prop :=
  op_path o = p /\ (op_source o = None \/ op_source o = Some s).

End OpSpec.

(** * Further services *)

Module MoreServices.
Import WebClient SlackSpec SlackFile.

(** A service whose listing has the channel "general" at the first request
    and no channel afterwards. *)
Definition moving_client : Client :=
  {| calls := [];
     conversations_list_at :=
       fun n => match n with
                | 0 => Ret [mkChannel "general" "C01"]
                | _ => Ret []
                end;
     chat_postMessage_at := fun _ _ _ _ => Ret (Some "1700000000.000100");
     chat_update_at := fun _ _ _ _ => Ret true;
     stdout := [] |}.

(** A service that accepts a post and answers with no "ts". *)
Definition mute_client : Client :=
  {| calls := [];
     conversations_list_at := fun _ => Ret [mkChannel "general" "C01"];
     chat_postMessage_at := fun _ _ _ _ => Ret None;
     chat_update_at := fun _ _ _ _ => Ret true;
     stdout := [] |}.

(** A service with two channels of the same name. *)
Definition twin_client : Client :=
  service [mkChannel "random" "C09"; mkChannel "general" "C01";
           mkChannel "general" "C02"].

(** A service that refuses every request with a SlackApiError. *)
Definition refusing_client : Client :=
  {| calls := [];
     conversations_list_at := fun _ => Raise (SlackApiError "ratelimited");
     chat_postMessage_at := fun _ _ _ _ => Raise (SlackApiError "ratelimited");
     chat_update_at := fun _ _ _ _ => Raise (SlackApiError "ratelimited");
     stdout := [] |}.

(** A client with uploads over [c], whose uploads are accepted. *)
Definition with_uploads (c : Client) : FileClient :=
  {| client := c; uploads := [];
     files_upload_v2_at := fun _ _ => Ret (Some "1700000001") |}.

(** The client after a line was printed. *)
Definition printed (s : string) (w : Client) : Client :=
  {| calls := calls w;
     conversations_list_at := conversations_list_at w;
     chat_postMessage_at := chat_postMessage_at w;
     chat_update_at := chat_update_at w;
     stdout := stdout w ++ [s] |}.

(** A [repr] of a list of names that fits names without quotes or escapes. *)
Definition plain_repr (names : list string) : string :=
  "[" +:+ join ", " ((fun s => "'" +:+ s +:+ "'") <$> names) +:+ "]".

End MoreServices.

(** * src/integrations/slack/slack_parallel_pytest/conftest.py *)

From stdpp Require pretty.

Module Conftest.
Import WebClient.

(** The values the pytest cache holds here: None, an int, a str. *)
Inductive pyval : Type :=
| PNone
| PInt (z : Z)
| PStr (s : string).

Global Instance pyval_eq_dec : EqDecision pyval.
Proof. solve_decision. Defined.

(** [str(v)], as an f-string formats it. *)
Definition py_str (v : pyval) : string :=
  match v with
  | PNone => "None"
  | PInt z => pretty.pretty z
  | PStr s => s
  end.

(** Truth value: None, 0 and "" are false. *)
Definition py_truth (v : pyval) : bool :=
  match v with
  | PNone => false
  | PInt z => negb (Z.eqb z 0)
  | PStr s => negb (bool_decide (s = ""))
  end.

(** [v + amount] for an int [amount]: TypeError unless [v] is an int. *)
Definition py_add {St} (v : pyval) (amount : Z) : M St pyval :=
  match v with
  | PInt z => mret (PInt (z + amount))
  | _ => raise (OtherError "TypeError")
  end.

(** A cached value as the [Optional[str]] the Slack methods take: a number
    goes to the service as its decimal text, and 0, false like the empty
    string, is turned down by the methods before it is sent. *)
Definition as_ts (v : pyval) : option string :=
  match v with
  | PNone => None
  | PStr s => Some s
  | PInt z => if Z.eqb z 0 then Some "" else Some (pretty.pretty z)
  end.

(** What [send_message] returns, as a cached value. *)
Definition of_ts (v : option string) : pyval :=
  match v with
  | None => PNone
  | Some s => PStr s
  end.

(** One pytest process: the module's [slack] client, the cache of
    [config.cache], the files of the working directory, whether the process
    is an xdist worker ([session.config] has [workerinput]), and whether a
    released [FileLock] leaves its file behind. *)
Record Session : Type := mkSession {
  slack : Client;
  cache : gmap string pyval;
  files : gset string;
  worker : bool;
  lock_files_stay : bool
}.

Definition set_slack (c : Client) (w : Session) : Session :=
  {| slack := c; cache := cache w; files := files w; worker := worker w;
     lock_files_stay := lock_files_stay w |}.

Definition set_cache (f : gmap string pyval -> gmap string pyval) (w : Session)
  : Session :=
  {| slack := slack w; cache := f (cache w); files := files w;
     worker := worker w; lock_files_stay := lock_files_stay w |}.

Definition set_files (f : gset string -> gset string) (w : Session) : Session :=
  {| slack := slack w; cache := cache w; files := f (files w);
     worker := worker w; lock_files_stay := lock_files_stay w |}.

(** A method of [slack], run in the session. *)
Definition on_slack {A} (m : M Client A) : M Session A :=
  fun w => (outcome (m (slack w)), set_slack (final (m (slack w))) w).

(** [config.cache.get(key, default)] *)
Definition cache_get (key : string) (default : pyval) : M Session pyval :=
  gets (fun w => match cache w !! key with Some v => v | None => default end).

(** [config.cache.set(key, value)] *)
Definition cache_set (key : string) (value : pyval) : M Session unit :=
  modify (set_cache <[key := value]>).

(** [os.path.exists(path)] *)
Definition os_path_exists (path : string) : M Session bool :=
  gets (fun w => bool_decide (path ∈ files w)).

(** [os.remove(path)] *)
Definition os_remove (path : string) : M Session unit :=
  fun w =>
    if bool_decide (path ∈ files w) then (Ret tt, set_files (fun f => f ∖ {[path]}) w)
    else (Raise FileNotFoundError, w).

(** [with FileLock(lock_file): body], one process at a time: the lock file
    is created, the body runs, the lock is released whether the body
    returns or raises. *)
Definition with_FileLock {A} (lock_file : string) (body : M Session A)
  : M Session A :=
  fun w =>
    let r := body (set_files (fun f => {[lock_file]} ∪ f) w) in
    (outcome r,
     if lock_files_stay (final r) then final r
     else set_files (fun f => f ∖ {[lock_file]}) (final r)).

Definition newline : string := String "010"%char EmptyString.

(** Line 8. *)
Definition thread_head : string := "Test Header".

(** [pytest_configure], lines 12-16. *)
Definition pytest_configure : M Session unit :=
  cache_set "parallel_add_total_1" (PInt 0);;
  cache_set "parallel_add_total_2" (PInt 0);;
  cache_set "thread_ts" PNone.

(** The fixture [thread_ts], lines 19-30. *)
Definition thread_ts : M Session pyval :=
  let lock_file := "slack_thread.lock" in
  with_FileLock lock_file
    (thread_ts ← cache_get "thread_ts" PNone;
     if decide (thread_ts = PNone) then
       sent_ts ← on_slack (Slack.send_message "eval-results"
                             (thread_head +:+ "🟡 Status: Running" +:+ newline));
       cache_set "thread_ts" (of_ts sent_ts);;
       mret (of_ts sent_ts)
     else mret thread_ts).

(** [increment], the function the fixture [parallel_add_totals] returns,
    lines 35-42. *)
Definition increment (amount1 amount2 : Z) : M Session unit :=
  with_FileLock "parallel_add_totals.lock"
    (current_total1 ← cache_get "parallel_add_total_1" (PInt 0);
     current_total2 ← cache_get "parallel_add_total_2" (PInt 0);
     new_total1 ← py_add current_total1 amount1;
     new_total2 ← py_add current_total2 amount2;
     cache_set "parallel_add_total_1" new_total1;;
     cache_set "parallel_add_total_2" new_total2).

(** The text of the closing edit, lines 57-58. *)
Definition finished_text (total1 total2 : pyval) : string :=
  thread_head +:+ "🟢 Status: Finished Running" +:+ newline
  +:+ "Total 1: " +:+ py_str total1 +:+ newline
  +:+ "Total 2: " +:+ py_str total2 +:+ newline.

(** The loop of lines 62-64 over the lock files. *)
Fixpoint remove_existing (lock_files : list string) : M Session unit :=
  match lock_files with
  | [] => mret tt
  | lock_file :: rest =>
      found ← os_path_exists lock_file;
      (if found : bool then os_remove lock_file else mret tt);;
      remove_existing rest
  end.

(** [pytest_sessionfinish], lines 47-64. *)
Definition pytest_sessionfinish : M Session unit :=
  is_worker ← gets worker;
  (if negb is_worker then
     thread_ts ← cache_get "thread_ts" PNone;
     total1 ← cache_get "parallel_add_total_1" (PInt 0);
     total2 ← cache_get "parallel_add_total_2" (PInt 0);
     if py_truth thread_ts then
       on_slack (Slack.edit_message "eval-results" (as_ts thread_ts)
                   (finished_text total1 total2));;
       mret tt
     else mret tt
   else mret tt);;
  remove_existing ["slack_thread.lock"; "parallel_add_totals.lock"].

(** The increments of several tests, one after the other. *)
Fixpoint increments (amounts : list (Z * Z)) : M Session unit :=
  match amounts with
  | [] => mret tt
  | (amount1, amount2) :: rest => increment amount1 amount2;; increments rest
  end.

(** A fresh main process over the client [c]. *)
Definition main_process (c : Client) : Session :=
  {| slack := c; cache := ∅; files := ∅; worker := false;
     lock_files_stay := true |}.

End Conftest.

(** * The conftest functions: what they read and leave *)

Module ConftestSpec.
Import WebClient Conftest.

(** What [cache.get(key, 0)] gives in [w]. *)
Definition total (key : string) (w : Session) : pyval :=
  match cache w !! key with
  | Some v => v
  | None => PInt 0
  end.

(** What [cache.get("thread_ts", None)] gives in [w]. *)
Definition cached_ts (w : Session) : pyval :=
  match cache w !! "thread_ts" with
  | Some v => v
  | None => PNone
  end.

(** The session once the lock on [lock_file] was taken and released. *)
Definition locked_once (lock_file : string) (w : Session) : Session :=
  if lock_files_stay w then set_files (fun f => {[lock_file]} ∪ f) w
  else set_files (fun f => ({[lock_file]} ∪ f) ∖ {[lock_file]}) w.

(** The sums of the two amounts of a list of increments. *)
Definition sum1 (amounts : list (Z * Z)) : Z := foldr Z.add 0%Z (amounts.*1).
Definition sum2 (amounts : list (Z * Z)) : Z := foldr Z.add 0%Z (amounts.*2).

(** The header message of the fixture. *)
Definition running_text : string :=
  thread_head +:+ "🟡 Status: Running" +:+ newline.

(** A session whose cache holds the thread and the totals, on a worker or
    not. *)
Definition finishing (c : Client) (ts t1 t2 : pyval) (on_worker : bool) : Session :=
  {| slack := c;
     cache := {[ "thread_ts" := ts; "parallel_add_total_1" := t1;
                 "parallel_add_total_2" := t2 ]};
     files := {[ "slack_thread.lock"; "parallel_add_totals.lock"; "conftest.py" ]};
     worker := on_worker; lock_files_stay := true |}.

(** A service that, at every request, lists "eval-results" under an id that
    is not empty, answers a post with a "ts" that is not empty, and answers
    an update. *)
Definition accepting (c : Client) : Prop :=
  (forall n, exists l cid,
      conversations_list_at c n = Ret l /\
      find_channel "eval-results" l = Some cid /\ cid <> "") /\
  (forall n channel text thread, exists ts,
      chat_postMessage_at c n channel text thread = Ret (Some ts) /\ ts <> "") /\
  (forall n channel ts text, exists ok,
      chat_update_at c n channel ts text = Ret ok).

(** One process from start to end: the configuration, the fixture, the
    increments of its tests, the end of the session. *)
Definition session (amounts : list (Z * Z)) : M Session unit :=
  pytest_configure;;
  thread_ts;;
  increments amounts;;
  pytest_sessionfinish.

End ConftestSpec.

(** * src/integrations/slack/slack_parallel_pytest/test_sample.py *)

Module TestSample.
Import WebClient Conftest.

(** The tests take the value of the fixture [thread_ts] and the function
    [increment] of the fixture [parallel_add_totals]; [time.sleep] is left
    out, and [assert True] does nothing. *)

(** [test_example1], lines 8-12. *)
Definition test_example1 (thread_ts : pyval) : M Session unit :=
  on_slack (Slack.send_thread_reply "eval-results" (as_ts thread_ts)
              ("Reply " +:+ py_str thread_ts +:+ " 1" +:+ newline));;
  increment 1 2.

(** [test_example2], lines 15-19. *)
Definition test_example2 (thread_ts : pyval) : M Session unit :=
  on_slack (Slack.send_thread_reply "eval-results" (as_ts thread_ts)
              ("Reply 2" +:+ newline));;
  increment 10 20.

(** [test_example3], lines 22-26. *)
Definition test_example3 (thread_ts : pyval) : M Session unit :=
  on_slack (Slack.send_thread_reply "eval-results" (as_ts thread_ts)
              ("Reply 3" +:+ newline));;
  increment 100 200.

End TestSample.

(** * The sample tests: what a test does with its reply *)

Module TestSampleSpec.
Import WebClient Conftest.

(** The test [test], whose reply has the text [text thread_ts], adds
    [amount1] and [amount2] only once its reply went out: when the reply
    raises the test raises the same and adds nothing, when it returns the
    test is the increment that follows; and a thread value that is false
    makes the reply raise, the channel listing being the one request. *)
Definition counts_after_reply (test : pyval -> M Session unit)
  (text : pyval -> string) (amount1 amount2 : Z) : Prop :=
  forall (thread_ts : pyval) (w : Session),
    let reply :=
      Slack.send_thread_reply "eval-results" (as_ts thread_ts) (text thread_ts)
        (slack w) in
    (forall e, outcome reply = Raise e ->
       test thread_ts w = (Raise e, set_slack (final reply) w)) /\
    (forall v, outcome reply = Ret v ->
       test thread_ts w = increment amount1 amount2 (set_slack (final reply) w)) /\
    (py_truth thread_ts = false ->
     exists e, outcome (test thread_ts w) = Raise e /\
               cache (final (test thread_ts w)) = cache w /\
               calls (slack (final (test thread_ts w)))
               = calls (slack w) ++ [ConversationsList]).

End TestSampleSpec.
(** * Facts about the string operations *)

Lemma string_app_assoc (a b c : string) : (a +:+ b) +:+ c = a +:+ b +:+ c.
Proof.
  induction a as [|ch a IH]; [done|].
  change (String ch ((a +:+ b) +:+ c) = String ch (a +:+ b +:+ c)).
  by rewrite IH.
Qed.

Lemma split_nonempty sep s : split sep s <> [].
Proof.
  destruct s as [|c s]; simpl; [done|].
  case_decide; [done|]. by destruct (split sep s).
Qed.

(** Splitting loses nothing: joining the segments gives the string back,
    and no segment holds the separator. *)
Lemma split_join s :
  join "/" (split "/" s) = s /\
  Forall (fun seg => contains_char "/" seg = false) (split "/" s).
Proof.
  induction s as [|c s [IHj IHf]]; simpl.
  - split; [done|]. by constructor.
  - case_decide as Hd.
    + subst c.
      destruct (split "/" s) as [|x xs] eqn:E; [by destruct (split_nonempty _ _ E)|].
      split; [by rewrite <- IHj|]. by constructor.
    + destruct (split "/" s) as [|x xs] eqn:E; [by destruct (split_nonempty _ _ E)|].
      inversion IHf as [|? ? Hx Hxs]; subst.
      split.
      * simpl in *. by destruct xs.
      * constructor; [|done]. simpl. rewrite Hx.
        by rewrite bool_decide_eq_false_2.
Qed.

Lemma join_last l seg :
  last l = Some seg ->
  join "/" l = seg \/ exists pre, join "/" l = pre +:+ "/" +:+ seg.
Proof.
  induction l as [|x [|y l'] IH]; intros Hl; [done| |].
  - simpl in Hl. simplify_eq. by left.
  - right.
    change (join "/" (x :: y :: l')) with (x +:+ "/" +:+ join "/" (y :: l')).
    destruct (IH Hl) as [E|[pre E]]; rewrite E.
    + by exists x.
    + exists (x +:+ "/" +:+ pre). by rewrite !string_app_assoc.
Qed.

Lemma startswith_hash_spec s :
  startswith_hash s = true <-> exists rest, s = String "#" rest.
Proof.
  destruct s as [|c s]; simpl.
  - split; [done|]. by intros [? ?].
  - rewrite bool_decide_eq_true. split.
    + intros ->. by eexists.
    + intros [? ?]. by simplify_eq.
Qed.

(** * Facts about the synchroniser *)

Module GitFacts.
Import Git GitSpec.

Ltac run :=
  unfold log, print in *;
  unfold mbind, M_bind, mret, M_ret, raise, try_except, effect, gets, modify in *.

Ltac go :=
  simpl;
  repeat (progress (repeat match goal with
                           | H : ?x = _ |- context [?x] => rewrite H
                           end;
                    rewrite ?lookup_insert_eq, ?lookup_delete_eq);
          simpl).

Lemma last_segment s :
  exists seg, last (split "/" s) = Some seg /\ last_segment_of s seg.
Proof.
  destruct (split_join s) as [Hj Hf].
  destruct (last (split "/" s)) as [seg|] eqn:Hl.
  - exists seg. split; [done|]. split.
    + apply last_Some_elem_of in Hl.
      by apply (proj1 (Forall_forall _ _) Hf).
    + destruct (join_last _ _ Hl) as [E|[pre E]]; rewrite Hj in E; eauto.
  - apply last_None in Hl. by destruct (split_nonempty _ _ Hl).
Qed.

Lemma local_path_segment s :
  exists seg, local_path s = "/tmp/" +:+ seg /\ last_segment_of s seg.
Proof.
  destruct (last_segment s) as (seg & Hl & Hs).
  exists seg. split; [|done]. unfold local_path. by rewrite Hl.
Qed.

Lemma repo_path_of_eq s w : repo_path_of s w = (Ret (local_path s), w).
Proof.
  unfold repo_path_of, local_path, getitem_last.
  destruct (last_segment s) as (seg & -> & _). reflexivity.
Qed.




(** *** The program, path by path *)

Lemma branch_exists_eq p b w :
  branch_exists p b w =
  match fs w !! p with
  | None => (Raise NoSuchPathError, w)
  | Some (RepoDir r) => (Ret (bool_decide (b ∈ ref_names r)), w)
  | Some (Plain GitCommandError) => (Ret false, add_out (unable p b) w)
  | Some (Plain e) => (Raise e, w)
  end.
Proof.
  unfold branch_exists, Repo, refs_contains, repo_at, unable. run.
  destruct (fs w !! p) as [[e|r]|] eqn:E; go; try done.
  by destruct e.
Qed.

Lemma sync_eq s p w : sync s p w = sync_result s p w.
Proof.
  unfold sync, branch_exists, os_path_exists, Repo, refs_contains, heads_getitem,
    checkout, head_reset, shutil_rmtree, clone_from, repo_at.
  unfold sync_result, reuse_result, reclone_result, clone_result, unable.
  run.
  change ("origin/" +:+ "main") with "origin/main".
  change ("origin/" +:+ "master") with "origin/master".
  destruct (fs w !! p) as [[e|r]|] eqn:E; go.
  - destruct e; go; try done. by destruct (remote w !! s).
  - destruct (bool_decide ("main" ∈ ref_names r)) eqn:Hm; go.
    + destruct (heads r !! "main") eqn:Hh; go; [|done].
      destruct (do_checkout "main" r) as [r1|] eqn:Hc; go; [|done].
      by destruct (do_reset "origin/main" r1) as [r2|] eqn:Hr; go.
    + destruct (bool_decide ("master" ∈ ref_names r)) eqn:Hm'; go.
      * destruct (heads r !! "master") eqn:Hh; go; [|done].
        destruct (do_checkout "master" r) as [r1|] eqn:Hc; go; [|done].
        by destruct (do_reset "origin/master" r1) as [r2|] eqn:Hr; go.
      * by destruct (remote w !! s).
  - by destruct (remote w !! s).
Qed.

Lemma recording_hook_eq p w : recording_hook p w = hook_result p w.
Proof.
  unfold recording_hook, Replay_instance_exists, Replay_is_recording,
    Replay_compress_source, hook_result. run.
  destruct (replay w) as [r|] eqn:E; go; [|done].
  destruct (recording r) eqn:E2; go; [|done].
  by destruct (archive_error r p).
Qed.

Lemma git_temp_clone_eq s w :
  git_temp_clone s w =
  match sync_result s (local_path s) w with
  | (Ret _, w1) =>
      match hook_result (local_path s) w1 with
      | (Ret _, w2) => (Ret (local_path s), w2)
      | (Raise e, w2) => (Raise e, w2)
      end
  | (Raise e, w1) => (Raise e, w1)
  end.
Proof.
  unfold git_temp_clone. unfold mbind at 1, M_bind at 1. rewrite repo_path_of_eq.
  unfold mbind at 1, M_bind at 1. rewrite sync_eq.
  destruct (sync_result _ _ _) as [[[]|e] w1]; [|done].
  unfold mbind at 1, M_bind at 1. rewrite recording_hook_eq.
  by destruct (hook_result _ _) as [[[]|e] w2].
Qed.

(** *** What the synchronisation leaves untouched *)

Lemma sync_frame s p w :
  remote (final (sync_result s p w)) = remote w /\
  replay (final (sync_result s p w)) = replay w.
Proof.
  unfold sync_result, reuse_result, reclone_result, clone_result.
  repeat case_match; simpl; done.
Qed.

Lemma hook_error_frame w w1 p :
  replay w1 = replay w -> hook_error w1 p = hook_error w p.
Proof. unfold hook_error. by intros ->. Qed.

Lemma hook_active_frame w w1 :
  replay w1 = replay w -> hook_active w1 = hook_active w.
Proof. unfold hook_active. by intros ->. Qed.

Lemma hook_result_obs p w :
  outcome (hook_result p w)
  = match hook_error w p with Some e => Raise e | None => Ret tt end /\
  fs (final (hook_result p w)) = fs w /\
  ops (final (hook_result p w))
  = ops w ++ (if hook_active w then [OpArchive p] else []).
Proof.
  unfold hook_result, hook_error, hook_active.
  destruct (replay w) as [r|]; simpl; [|by rewrite app_nil_r].
  destruct (recording r); simpl; [|by rewrite app_nil_r].
  by destruct (archive_error r p).
Qed.

(** The call after a synchronisation that raised. *)
Lemma git_temp_clone_sync_raised s w e w1 :
  sync_result s (local_path s) w = (Raise e, w1) ->
  git_temp_clone s w = (Raise e, w1).
Proof. intros H. by rewrite git_temp_clone_eq, H. Qed.

(** The call after a synchronisation that succeeded: the hook decides. *)
Lemma git_temp_clone_sync_returned s w w1 :
  sync_result s (local_path s) w = (Ret tt, w1) ->
  outcome (git_temp_clone s w)
  = match hook_error w (local_path s) with
    | Some e => Raise e
    | None => Ret (local_path s)
    end /\
  fs (final (git_temp_clone s w)) = fs w1 /\
  ops (final (git_temp_clone s w))
  = ops w1 ++ (if hook_active w then [OpArchive (local_path s)] else []).
Proof.
  intros H. rewrite git_temp_clone_eq, H.
  destruct (sync_frame s (local_path s) w) as [_ Hrep]. rewrite H in Hrep.
  simpl in Hrep.
  destruct (hook_result_obs (local_path s) w1) as (Ho & Hf & Hops).
  rewrite (hook_error_frame _ _ _ Hrep) in Ho.
  rewrite (hook_active_frame _ _ Hrep) in Hops.
  destruct (hook_result (local_path s) w1) as [[[]|e] w2]; simpl in *;
    destruct (hook_error w (local_path s)); by simplify_eq.
Qed.

End GitFacts.

(** * Properties of the synchroniser *)

Module SyncProperties.
Import Git GitSpec GitFacts Scenario.

(** *** Cloning *)

Lemma clone_result_obs s p w rr :
  remote w !! s = Some rr ->
  outcome (clone_result s p w) = Ret tt /\
  fs (final (clone_result s p w)) = <[p := RepoDir (fresh_clone rr)]> (fs w) /\
  ops (final (clone_result s p w)) = ops w ++ [OpClone s p].
Proof. intros H. unfold clone_result. by rewrite H. Qed.

Lemma clone_result_ops s p w :
  ops (final (clone_result s p w)) = ops w ++ [OpClone s p].
Proof. unfold clone_result. by destruct (remote w !! s). Qed.

Lemma hook_tail (w : World) (p : string) (tl : list Op) :
  tl = (if hook_active w then [OpArchive p] else []) ->
  tl = [] \/ tl = [OpArchive p].
Proof. intros ->. destruct (hook_active w); auto. Qed.

(** What a call leaves in the log, whatever the synchronisation did. *)
Lemma git_temp_clone_ops s w :
  exists tl,
    ops (final (git_temp_clone s w))
    = ops (final (sync_result s (local_path s) w)) ++ tl /\
    (tl = [] \/ tl = [OpArchive (local_path s)]).
Proof.
  destruct (sync_result s (local_path s) w) as [[[]|e] w1] eqn:E.
  - destruct (git_temp_clone_sync_returned _ _ _ E) as (_ & _ & ->).
    eexists. split; [done|]. by eapply hook_tail.
  - rewrite (git_temp_clone_sync_raised _ _ _ _ E). exists []. simpl.
    by rewrite app_nil_r; auto.
Qed.

(** C6. The local path of a source S is "/tmp/" followed by the last
    "/"-separated segment of S, and it is the only path a call returns.
    When nothing exists at that path, the call issues one clone of S into
    it and nothing else but the archival; when S can be cloned and the
    recording hook does not raise, the call returns the path and the path
    holds the fresh clone. *)
Theorem git_temp_clone_clones_absent_path (S : string) (w : World) :
  let p := local_path S in
  let res := git_temp_clone S w in
  (exists seg, p = "/tmp/" +:+ seg /\ last_segment_of S seg) /\
  repo_path_of S w = (Ret p, w) /\
  (forall v, outcome res = Ret v -> v = p) /\
  (fs w !! p = None ->
   (exists tl, ops (final res) = ops w ++ OpClone S p :: tl /\
               (tl = [] \/ tl = [OpArchive p])) /\
   (forall rr, remote w !! S = Some rr -> hook_error w p = None ->
      outcome res = Ret p /\
      fs (final res) = <[p := RepoDir (fresh_clone rr)]> (fs w))).
Proof.
  intros p res. split; [apply local_path_segment|].
  split; [apply repo_path_of_eq|]. split.
  - intros v. subst res. rewrite git_temp_clone_eq.
    destruct (sync_result S (local_path S) w) as [[[]|e] w1]; [|done].
    destruct (hook_result (local_path S) w1) as [[[]|e] w2]; [|done].
    simpl. by intros [= <-].
  - intros Habs.
    assert (Hs : sync_result S p w
                 = clone_result S p
                     (add_out ("Cloning repository from " +:+ S +:+ " to " +:+ p) w)).
    { unfold sync_result. by rewrite Habs. }
    split.
    + destruct (git_temp_clone_ops S w) as (tl & Hops & Htl).
      exists tl. split; [|done]. subst res. rewrite Hops. fold p. rewrite Hs.
      rewrite clone_result_ops. simpl. by rewrite <- app_assoc.
    + intros rr Hrr Hhook.
      destruct (clone_result_obs S p
                  (add_out ("Cloning repository from " +:+ S +:+ " to " +:+ p) w)
                  rr Hrr) as (Ho & Hf & _).
      rewrite <- Hs in Ho, Hf.
      destruct (sync_result S p w) as [[[]|e] w1] eqn:E; [|done].
      destruct (git_temp_clone_sync_returned _ _ _ E) as (Hout & Hfs & _).
      fold p in Hout, Hfs. subst res. rewrite Hout, Hfs, Hhook. done.
Qed.

(** At the spec's scenario: "https://example.com/org/repo" resolves to
    "/tmp/repo", and with no local state the call clones into it. *)
Lemma git_temp_clone_clones_absent_path_witness :
  local_path source = "/tmp/repo" /\
  outcome (git_temp_clone source empty_world) = Ret "/tmp/repo" /\
  fs (final (git_temp_clone source empty_world))
  = <["/tmp/repo" := RepoDir (fresh_clone (main_remote 1))]> (fs empty_world).
Proof.
  split; [reflexivity|].
  destruct (git_temp_clone_clones_absent_path source empty_world)
    as (_ & _ & _ & H).
  destruct (H eq_refl) as [_ H2].
  exact (H2 (main_remote 1) eq_refl eq_refl).
Defined.

(** The full re-clone: what it issues and what it leaves. *)
Lemma reclone_result_ops s p w :
  ops (final (reclone_result s p w)) = ops w ++ [OpRmtree p; OpClone s p].
Proof.
  unfold reclone_result. rewrite clone_result_ops. simpl.
  by rewrite <- app_assoc.
Qed.

Lemma reclone_result_obs s p w rr :
  remote w !! s = Some rr ->
  outcome (reclone_result s p w) = Ret tt /\
  fs (final (reclone_result s p w)) = <[p := RepoDir (fresh_clone rr)]> (fs w).
Proof.
  intros H. unfold reclone_result, clone_result. simpl. rewrite H. simpl.
  split; [done|]. apply insert_delete_eq.
Qed.

(** When both checks answer false the synchronisation is the re-clone, run
    in a world that differs from [w] by what the checks printed. *)
Lemma sync_result_fallback s p w :
  is_Some (fs w !! p) ->
  outcome (branch_exists p "main" w) = Ret false ->
  outcome (branch_exists p "master" w) = Ret false ->
  exists w0, sync_result s p w = reclone_result s p w0 /\
             fs w0 = fs w /\ ops w0 = ops w /\ remote w0 = remote w.
Proof.
  intros [node Hn]. rewrite !branch_exists_eq. unfold sync_result.
  rewrite Hn. destruct node as [e|r].
  - destruct e; try done. intros _ _. by eexists.
  - simpl. intros [= ->] [= ->]. by eexists.
Qed.

(** C2. When the local path exists and [branch_exists] answers false for
    both "main" and "master", the call deletes the path and clones S into
    it: the operations it issues are the deletion, the clone, and at most
    the archival, so no branch is checked out or reset.  When S can be
    cloned and the recording hook does not raise, the call returns the path
    and the path holds the fresh clone. *)
Theorem git_temp_clone_reclones_unknown_branches (S : string) (w : World) :
  let p := local_path S in
  let res := git_temp_clone S w in
  is_Some (fs w !! p) ->
  outcome (branch_exists p "main" w) = Ret false ->
  outcome (branch_exists p "master" w) = Ret false ->
  (exists tl, ops (final res) = ops w ++ OpRmtree p :: OpClone S p :: tl /\
              (tl = [] \/ tl = [OpArchive p])) /\
  (forall rr, remote w !! S = Some rr -> hook_error w p = None ->
     outcome res = Ret p /\
     fs (final res) = <[p := RepoDir (fresh_clone rr)]> (fs w)).
Proof.
  intros p res Hex Hmain Hmaster.
  destruct (sync_result_fallback S p w Hex Hmain Hmaster)
    as (w0 & Hs & Hfs & Hops & Hrem).
  split.
  - destruct (git_temp_clone_ops S w) as (tl & Hl & Htl).
    exists tl. split; [|done]. subst res. rewrite Hl. fold p. rewrite Hs.
    rewrite reclone_result_ops, Hops. by rewrite <- app_assoc.
  - intros rr Hrr Hhook. rewrite <- Hrem in Hrr.
    destruct (reclone_result_obs S p w0 rr Hrr) as (Ho & Hf).
    rewrite <- Hs in Ho, Hf.
    destruct (sync_result S p w) as [[[]|e] w1] eqn:E; [|done].
    destruct (git_temp_clone_sync_returned _ _ _ E) as (Hout & Hfs' & _).
    fold p in Hout, Hfs'. subst res. rewrite Hout, Hfs', Hhook.
    simpl in Hf. by rewrite Hf, Hfs.
Qed.

(** At the spec's scenario: the working copy has the branch "feature-x"
    only; the call deletes it and clones anew. *)
Lemma git_temp_clone_reclones_unknown_branches_witness :
  ops (final (git_temp_clone source feature_world))
  = [OpRmtree "/tmp/repo"; OpClone source "/tmp/repo"] /\
  outcome (git_temp_clone source feature_world) = Ret "/tmp/repo" /\
  fs (final (git_temp_clone source feature_world))
  = <["/tmp/repo" := RepoDir (fresh_clone (main_remote 1))]> (fs feature_world).
Proof.
  split; [by vm_compute|].
  assert (Hex : is_Some (fs feature_world !! local_path source))
    by (by eexists).
  destruct (git_temp_clone_reclones_unknown_branches source feature_world
              Hex eq_refl eq_refl) as [_ H].
  exact (H (main_remote 1) eq_refl eq_refl).
Defined.

(** *** Reusing the working copy *)

Lemma do_checkout_Some b r r1 :
  do_checkout b r = Some r1 ->
  heads r1 = heads r /\ tags r1 = tags r /\ remotes r1 = remotes r /\
  HEAD r1 = OnBranch b.
Proof.
  unfold do_checkout. destruct (heads r !! b); [|done].
  case_decide as Hd; [by intros [= <-]|].
  destruct (tree r) as [|[]]; [|done|]; by intros [= <-].
Qed.

Lemma rev_parse_ext r r1 rev :
  heads r1 = heads r -> tags r1 = tags r -> remotes r1 = remotes r ->
  rev_parse r1 rev = rev_parse r rev.
Proof. unfold rev_parse. by intros -> -> ->. Qed.

Lemma do_reset_on_branch rev b t r1 :
  HEAD r1 = OnBranch b -> rev_parse r1 rev = Some t ->
  do_reset rev r1
  = Some {| heads := <[b := t]> (heads r1); tags := tags r1;
            remotes := remotes r1; HEAD := OnBranch b; tree := Clean |}.
Proof. unfold do_reset. by intros -> ->. Qed.

(** What reusing issues: the checkout when the head exists, then the reset
    when git accepts the checkout; nothing else. *)
Lemma reuse_result_ops p b r w :
  exists l,
    ops (final (reuse_result p b r w)) = ops w ++ l /\
    (heads r !! b = None -> l = []) /\
    (is_Some (heads r !! b) ->
       exists tl, l = OpCheckout p b :: tl /\
                  (tl = [] \/ tl = [OpReset p ("origin/" +:+ b)])).
Proof.
  unfold reuse_result. destruct (heads r !! b) as [c|] eqn:Hh.
  - destruct (do_checkout b r) as [r1|].
    + destruct (do_reset ("origin/" +:+ b) r1) as [r2|]; simpl;
        (eexists; split; [by rewrite <- app_assoc|]; split; [done|];
         intros _; eexists; split; [done|]; auto).
    + simpl. eexists. split; [done|]. split; [done|].
      intros _. eexists. split; [done|]. auto.
  - exists []. simpl. rewrite app_nil_r. split; [done|]. split; [done|].
    by intros [? ?].
Qed.


Lemma reuse_result_done p b r w r1 t :
  do_checkout b r = Some r1 ->
  rev_parse r ("origin/" +:+ b) = Some t ->
  outcome (reuse_result p b r w) = Ret tt /\
  repo_at p (final (reuse_result p b r w)) = Some (reset_to b t r) /\
  ops (final (reuse_result p b r w))
  = ops w ++ [OpCheckout p b; OpReset p ("origin/" +:+ b)].
Proof.
  intros Hc Hr. unfold reuse_result.
  assert (is_Some (heads r !! b)) as [c Hh].
  { unfold do_checkout in Hc. destruct (heads r !! b); [by eexists|done]. }
  rewrite Hh, Hc.
  destruct (do_checkout_Some _ _ _ Hc) as (Eh & Et & Er & EH).
  rewrite <- (rev_parse_ext r r1 _ Eh Et Er) in Hr.
  rewrite (do_reset_on_branch _ _ _ _ EH Hr). simpl.
  split; [done|]. split.
  - unfold repo_at. simpl. rewrite lookup_insert_eq.
    unfold reset_to. by rewrite Eh, Et, Er.
  - by rewrite <- app_assoc.
Qed.



Lemma do_checkout_None b r :
  is_Some (heads r !! b) ->
  do_checkout b r = None <-> checkout_refused b r.
Proof.
  intros [c Hh]. unfold do_checkout, checkout_refused. rewrite Hh.
  case_decide as Hd.
  - split; [done|]. by intros [? _].
  - destruct (tree r) as [|[]]; split; try done; by intros [_ ?].
Qed.


Lemma head_in_refs r b : is_Some (heads r !! b) -> b ∈ ref_names r.
Proof. intros H. unfold ref_names. apply elem_of_dom in H. set_solver. Qed.




(** *** What a successful call leaves *)

Lemma reuse_result_returned p b r w w1 :
  reuse_result p b r w = (Ret tt, w1) ->
  exists t, rev_parse r ("origin/" +:+ b) = Some t /\
            repo_at p w1 = Some (reset_to b t r).
Proof.
  intros H.
  destruct (do_checkout b r) as [r1|] eqn:Hc.
  - destruct (do_checkout_Some _ _ _ Hc) as (Eh & Et & Er & EH).
    destruct (rev_parse r ("origin/" +:+ b)) as [t|] eqn:Hr.
    + exists t. split; [done|].
      destruct (reuse_result_done p b r w r1 t Hc Hr) as (_ & Hrepo & _).
      by rewrite H in Hrepo.
    + unfold reuse_result in H. rewrite Hc in H.
      unfold do_reset in H. rewrite (rev_parse_ext r r1 _ Eh Et Er), Hr in H.
      by destruct (heads r !! b).
  - unfold reuse_result in H. rewrite Hc in H. by destruct (heads r !! b).
Qed.

Lemma clone_result_returned s p w w1 :
  clone_result s p w = (Ret tt, w1) ->
  exists rr, remote w !! s = Some rr /\
             repo_at p w1 = Some (fresh_clone rr).
Proof.
  unfold clone_result. destruct (remote w !! s) as [rr|]; [|done].
  intros [= <-]. exists rr. split; [done|].
  unfold repo_at. simpl. by rewrite lookup_insert_eq.
Qed.

(** After a call that returns, the returned path is the local path of the
    source and holds a working copy: a fresh clone of the source, or the
    previous working copy with "main" (else "master") checked out and reset
    to what "origin/main" (else "origin/master") resolves to locally. *)
Lemma git_temp_clone_returned (S : string) (w : World) (v : string) :
  outcome (git_temp_clone S w) = Ret v ->
  v = local_path S /\
  ((exists rr, remote w !! S = Some rr /\
               repo_at v (final (git_temp_clone S w)) = Some (fresh_clone rr)) \/
   (exists r b t, fs w !! v = Some (RepoDir r) /\ (b = "main" \/ b = "master") /\
                  rev_parse r ("origin/" +:+ b) = Some t /\
                  repo_at v (final (git_temp_clone S w)) = Some (reset_to b t r))).
Proof.
  intros Hout. set (p := local_path S).
  destruct (sync_result S p w) as [[[]|e] w1] eqn:E.
  2:{ unfold p in E. by rewrite (git_temp_clone_sync_raised _ _ _ _ E) in Hout. }
  destruct (git_temp_clone_sync_returned _ _ _ E) as (Ho & Hf & _).
  fold p in Ho, Hf. rewrite Ho in Hout.
  destruct (hook_error w p); [done|]. injection Hout as <-.
  split; [done|].
  assert (Hrepo : repo_at p (final (git_temp_clone S w)) = repo_at p w1)
    by (unfold repo_at; by rewrite Hf).
  rewrite Hrepo. unfold sync_result in E.
  destruct (fs w !! p) as [[e|r]|] eqn:Hfs.
  - destruct e; try done. left. unfold reclone_result in E.
    by apply clone_result_returned in E.
  - destruct (bool_decide ("main" ∈ ref_names r)).
    + right. destruct (reuse_result_returned _ _ _ _ _ E) as (t & Ht & Hr).
      exists r, "main", t. auto.
    + destruct (bool_decide ("master" ∈ ref_names r)).
      * right. destruct (reuse_result_returned _ _ _ _ _ E) as (t & Ht & Hr).
        exists r, "master", t. auto.
      * left. unfold reclone_result in E.
        by apply clone_result_returned in E.
  - left. by apply clone_result_returned in E.
Qed.

Lemma tip_fresh_clone rr :
  tip (fresh_clone rr) = r_branches rr !! r_default rr.
Proof.
  unfold tip, fresh_clone. simpl.
  destruct (r_branches rr !! r_default rr); [|done].
  apply lookup_singleton_eq.
Qed.

Lemma tip_reset_to b t r : tip (reset_to b t r) = Some t.
Proof. unfold tip, reset_to. simpl. apply lookup_insert_eq. Qed.

(** C1, at a working copy cloned before the remote moved.  The call returns
    the path, issues the checkout and the reset and no fetch, reports that it
    pulled the latest changes, and leaves "main" at commit 1, the local
    "origin/main", while the remote's "main" is at commit 2. *)
Theorem git_temp_clone_resets_to_stale_reference :
  let res := git_temp_clone source stale_world in
  outcome res = Ret "/tmp/repo" /\
  ops (final res)
  = [OpCheckout "/tmp/repo" "main"; OpReset "/tmp/repo" "origin/main"] /\
  last (stdout (final res))
  = Some "Reset to main branch and pulled latest changes!" /\
  tip <$> repo_at "/tmp/repo" (final res) = Some (Some 1) /\
  remote (final res) !! source ≫= (fun rr => r_branches rr !! "main") = Some 2.
Proof. by vm_compute. Qed.

(** C3, at a path that is not a working copy and at a missing path.
    [branch_exists] raises what GitPython raises, and [git_temp_clone]
    raises it too, before any deletion or clone. *)
Theorem branch_exists_raises_on_non_repository :
  outcome (branch_exists "/tmp/repo" "main" plain_world)
  = Raise InvalidGitRepositoryError /\
  outcome (branch_exists "/tmp/repo" "main" empty_world)
  = Raise NoSuchPathError /\
  git_temp_clone source plain_world = (Raise InvalidGitRepositoryError, plain_world).
Proof. by vm_compute. Qed.

(** C4, at a recorder whose archival fails: the hook is reached after the
    clone, and the caller gets the archival's exception, not the path. *)
Lemma archive_failure_reaches_caller :
  let res := git_temp_clone source recorded_world in
  hook_error recorded_world "/tmp/repo" = Some (OtherError "archive failed") /\
  ops (final res) = [OpClone source "/tmp/repo"; OpArchive "/tmp/repo"] /\
  outcome res = Raise (OtherError "archive failed") /\
  outcome res <> Ret (local_path source).
Proof. by vm_compute. Qed.

(** C4, as the code has it.  Once the synchronisation has returned, a
    recorder that records and whose [compress_source] raises [e] makes the
    call raise [e]: the caller gets no path, the synchronised working copy
    stays as it is.  The call returns the path when the hook raises
    nothing. *)
Theorem recording_hook_failure_propagates (S : string) (w w1 : World) :
  let p := local_path S in
  sync S p w = (Ret tt, w1) ->
  (forall e, hook_error w p = Some e ->
     git_temp_clone S w = (Raise e, add_op (OpArchive p) w1)) /\
  (hook_error w p = None ->
     outcome (git_temp_clone S w) = Ret p /\
     fs (final (git_temp_clone S w)) = fs w1).
Proof.
  intros p Hs. rewrite sync_eq in Hs. split.
  - intros e He. rewrite git_temp_clone_eq. fold p. rewrite Hs.
    destruct (sync_frame S p w) as [_ Hrep]. rewrite Hs in Hrep. simpl in Hrep.
    unfold hook_result. unfold hook_error in He. rewrite Hrep.
    destruct (replay w) as [r|]; [|done].
    destruct (recording r); [|done]. by rewrite He.
  - intros Hn. destruct (git_temp_clone_sync_returned _ _ _ Hs) as (Ho & Hf & _).
    fold p in Ho. by rewrite Ho, Hn.
Qed.

Lemma recording_hook_failure_propagates_witness :
  outcome (git_temp_clone source recorded_world)
  = Raise (OtherError "archive failed") /\
  outcome (git_temp_clone source empty_world) = Ret "/tmp/repo".
Proof.
  split.
  - destruct (recording_hook_failure_propagates source recorded_world
                (final (sync source (local_path source) recorded_world))
                eq_refl) as [H _].
    by rewrite (H (OtherError "archive failed") eq_refl).
  - destruct (recording_hook_failure_propagates source empty_world
                (final (sync source (local_path source) empty_world))
                eq_refl) as [_ H].
    exact (proj1 (H eq_refl)).
Defined.

(** *** Calling twice *)

Lemma git_temp_clone_frame S w :
  remote (final (git_temp_clone S w)) = remote w /\
  replay (final (git_temp_clone S w)) = replay w.
Proof.
  rewrite git_temp_clone_eq.
  destruct (sync_frame S (local_path S) w) as [Hrem Hrep].
  destruct (sync_result S (local_path S) w) as [[[]|e] w1]; [|done].
  simpl in Hrem, Hrep. unfold hook_result.
  destruct (replay w1) as [r|] eqn:E; [|simpl; split; congruence].
  destruct (recording r); [|simpl; split; congruence].
  destruct (archive_error r (local_path S)); simpl; split; congruence.
Qed.

(** The second synchronisation of a working copy the first one reset. *)
Lemma sync_result_on_reset s p b t r wx :
  fs wx !! p = Some (RepoDir (reset_to b t r)) ->
  rev_parse r ("origin/" +:+ b) = Some t ->
  b = "main" \/ (b = "master" /\ "main" ∉ ref_names r) ->
  exists w2, sync_result s p wx = (Ret tt, w2) /\
             repo_at p w2 = Some (reset_to b t r).
Proof.
  intros Hfs Hrev Hb.
  set (r' := reset_to b t r) in *.
  assert (Hsync : sync_result s p wx = reuse_result p b r' wx).
  { unfold sync_result. rewrite Hfs.
    destruct Hb as [->|[-> Hnm]].
    - rewrite bool_decide_eq_true_2; [done|].
      apply head_in_refs. unfold r', reset_to. simpl.
      rewrite lookup_insert_eq. by eexists.
    - rewrite bool_decide_eq_false_2.
      + rewrite bool_decide_eq_true_2; [done|].
        apply head_in_refs. unfold r', reset_to. simpl.
        rewrite lookup_insert_eq. by eexists.
      + intros Hin. apply Hnm. unfold ref_names in *. unfold r', reset_to in Hin.
        simpl in Hin. rewrite dom_insert_L in Hin.
        rewrite !elem_of_union in Hin. rewrite !elem_of_union.
        destruct Hin as [[[Hin|Hin]|Hin]|Hin]; auto.
        by apply elem_of_singleton in Hin. }
  assert (Hco : do_checkout b r' = Some r').
  { unfold do_checkout, r', reset_to. simpl. rewrite lookup_insert_eq.
    by rewrite decide_True. }
  assert (Hrev' : rev_parse r' ("origin/" +:+ b) = Some t).
  { rewrite <- Hrev. unfold rev_parse, r', reset_to. simpl.
    rewrite lookup_insert_ne; [done|].
    destruct Hb as [->|[-> _]]; discriminate. }
  destruct (reuse_result_done p b r' wx r' t Hco Hrev') as (Ho & Hrepo & _).
  rewrite <- Hsync in Ho, Hrepo.
  destruct (sync_result s p wx) as [[[]|e] w2]; [|done].
  exists w2. split; [done|]. simpl in Hrepo. rewrite Hrepo.
  unfold r', reset_to. simpl. by rewrite insert_insert_eq.
Qed.

Lemma fresh_clone_ref rr b :
  r_tags rr !! b = None ->
  (forall k, b <> "origin/" +:+ k) ->
  b ∈ ref_names (fresh_clone rr) ->
  r_default rr = b /\ is_Some (r_branches rr !! b).
Proof.
  intros Ht Hk. unfold ref_names, fresh_clone. simpl.
  rewrite !elem_of_union. intros [[Hh|Htag]|Hr].
  - destruct (r_branches rr !! r_default rr) as [c|] eqn:E.
    + rewrite dom_singleton_L in Hh. apply elem_of_singleton in Hh as ->.
      split; [done|]. by eexists.
    + by rewrite dom_empty_L in Hh.
  - apply elem_of_dom in Htag as [? Htag]. congruence.
  - apply elem_of_dom in Hr as [c Hr].
    apply lookup_kmap_Some in Hr as (k & -> & _); [|apply _].
    by destruct (Hk k).
Qed.

(** The second synchronisation of a fresh clone of the source. *)
Lemma sync_result_on_fresh_clone s p rr wx :
  fs wx !! p = Some (RepoDir (fresh_clone rr)) ->
  remote wx !! s = Some rr ->
  plain_tags rr ->
  exists w2, sync_result s p wx = (Ret tt, w2) /\
             repo_at p w2 = Some (fresh_clone rr).
Proof.
  intros Hfs Hrem (Tm & Tms & Tom & Toms).
  assert (Hreuse : forall b,
             (b = "main" \/ b = "master") ->
             b ∈ ref_names (fresh_clone rr) ->
             exists w2, reuse_result p b (fresh_clone rr) wx = (Ret tt, w2) /\
                        repo_at p w2 = Some (fresh_clone rr)).
  { intros b Hb Hin.
    assert (r_default rr = b /\ is_Some (r_branches rr !! b)) as [Hd [c Hc]].
    { apply fresh_clone_ref; [by destruct Hb as [->| ->]| |done].
      destruct Hb as [->| ->]; intros k; discriminate. }
    assert (Hfc : fresh_clone rr
                  = {| heads := {[ b := c ]}; tags := r_tags rr;
                       remotes := kmap (String.append "origin/") (r_branches rr);
                       HEAD := OnBranch b; tree := Clean |}).
    { unfold fresh_clone. by rewrite Hd, Hc. }
    assert (Hco : do_checkout b (fresh_clone rr) = Some (fresh_clone rr)).
    { rewrite Hfc. unfold do_checkout. simpl. rewrite lookup_singleton_eq.
      by rewrite decide_True. }
    assert (Hrev : rev_parse (fresh_clone rr) ("origin/" +:+ b) = Some c).
    { rewrite Hfc. unfold rev_parse. simpl.
      replace (r_tags rr !! ("origin/" +:+ b)) with (@None commit)
        by (by destruct Hb as [->| ->]).
      rewrite lookup_singleton_ne; [|by destruct Hb as [->| ->]].
      apply lookup_kmap_Some; [apply _|]. by exists b. }
    destruct (reuse_result_done p b _ wx _ c Hco Hrev) as (Ho & Hrepo & _).
    destruct (reuse_result p b (fresh_clone rr) wx) as [[[]|e] w2]; [|done].
    exists w2. split; [done|]. simpl in Hrepo. rewrite Hrepo, Hfc.
    unfold reset_to. simpl. by rewrite insert_singleton_eq. }
  unfold sync_result. rewrite Hfs.
  destruct (bool_decide ("main" ∈ ref_names (fresh_clone rr))) eqn:Hm.
  { apply bool_decide_eq_true in Hm. apply Hreuse; auto. }
  destruct (bool_decide ("master" ∈ ref_names (fresh_clone rr))) eqn:Hms.
  { apply bool_decide_eq_true in Hms. apply Hreuse; auto. }
  destruct (reclone_result_obs s p wx rr Hrem) as (Ho & Hf).
  destruct (reclone_result s p wx) as [[[]|e] w2]; [|done].
  exists w2. split; [done|]. unfold repo_at. simpl in Hf.
  by rewrite Hf, lookup_insert_eq.
Qed.

(** Synchronising again, the source unchanged, a world whose files are
    those the first synchronisation left. *)
Lemma sync_result_again s p w w1 wx :
  sync_result s p w = (Ret tt, w1) ->
  fs wx = fs w1 -> remote wx = remote w ->
  (forall rr, remote w !! s = Some rr -> plain_tags rr) ->
  exists w2, sync_result s p wx = (Ret tt, w2) /\
             repo_at p w2 = repo_at p w1.
Proof.
  intros Hs Hfs Hrem Htags.
  assert (Hclone : forall w0, clone_result s p w0 = (Ret tt, w1) ->
             remote w0 = remote w ->
             exists w2, sync_result s p wx = (Ret tt, w2) /\
                        repo_at p w2 = repo_at p w1).
  { intros w0 Hc Hr0. apply clone_result_returned in Hc as (rr & Hrr & Hrepo).
    rewrite Hr0 in Hrr. rewrite Hrepo.
    apply sync_result_on_fresh_clone; [|by rewrite Hrem|by apply Htags].
    rewrite Hfs. unfold repo_at in Hrepo.
    by destruct (fs w1 !! p) as [[|]|]; simplify_eq. }
  assert (Hreuse : forall b r, fs w !! p = Some (RepoDir r) ->
             reuse_result p b r w = (Ret tt, w1) ->
             b = "main" \/ (b = "master" /\ "main" ∉ ref_names r) ->
             exists w2, sync_result s p wx = (Ret tt, w2) /\
                        repo_at p w2 = repo_at p w1).
  { intros b r Hr Hres Hb.
    apply reuse_result_returned in Hres as (t & Ht & Hrepo). rewrite Hrepo.
    apply (sync_result_on_reset s p b t r wx); [|done|done].
    rewrite Hfs. unfold repo_at in Hrepo.
    by destruct (fs w1 !! p) as [[|]|]; simplify_eq. }
  unfold sync_result in Hs.
  destruct (fs w !! p) as [[e|r]|] eqn:Hp.
  - destruct e; try done. by apply (Hclone _ Hs).
  - destruct (bool_decide ("main" ∈ ref_names r)) eqn:Hm.
    + apply (Hreuse "main" r); auto.
    + apply bool_decide_eq_false in Hm.
      destruct (bool_decide ("master" ∈ ref_names r)).
      * apply (Hreuse "master" r); auto.
      * by apply (Hclone _ Hs).
  - by apply (Hclone _ Hs).
Qed.

(** X5. Where the second call does repeat the first.  When a call returns and
    no tag of the remote is named "main", "master", "origin/main" or
    "origin/master", calling again with the remote unchanged returns the
    same path and leaves the same working copy, hence the same tip. *)
Lemma git_temp_clone_twice (S : string) (w : World) (v : string) :
  let first := git_temp_clone S w in
  let second := git_temp_clone S (final first) in
  outcome first = Ret v ->
  (forall rr, remote w !! S = Some rr -> plain_tags rr) ->
  remote (final first) = remote w /\
  outcome second = Ret v /\
  repo_at v (final second) = repo_at v (final first) /\
  tip <$> repo_at v (final second) = tip <$> repo_at v (final first).
Proof.
  intros first second Hout Htags.
  destruct (git_temp_clone_frame S w) as [Hrem Hrep]. fold first in Hrem, Hrep.
  split; [done|].
  set (p := local_path S) in *.
  destruct (sync_result S p w) as [[[]|e] w1] eqn:E.
  2:{ unfold p in E. subst first.
      by rewrite (git_temp_clone_sync_raised _ _ _ _ E) in Hout. }
  destruct (git_temp_clone_sync_returned _ _ _ E) as (Ho & Hf & _).
  fold p first in Ho, Hf. rewrite Ho in Hout.
  destruct (hook_error w p) eqn:Hh; [done|]. injection Hout as <-.
  destruct (sync_result_again S p w w1 (final first) E Hf Hrem Htags)
    as (w2 & Hs2 & Hrepo2).
  destruct (git_temp_clone_sync_returned _ _ _ Hs2) as (Ho2 & Hf2 & _).
  fold p second in Ho2, Hf2.
  rewrite (hook_error_frame _ _ _ Hrep), Hh in Ho2.
  assert (Hsame : repo_at p (final second) = repo_at p (final first)).
  { unfold repo_at in *. by rewrite Hf2, Hrepo2, Hf. }
  by rewrite Hsame.
Qed.

(** C7, at a remote whose default branch is "develop" and that has a tag
    named "main".  The first call clones and returns the path; the second
    call, the remote unchanged, raises IndexError: [branch_exists] finds
    "main" among the references, [repo.heads] has no such branch. *)
Theorem git_temp_clone_second_call_raises :
  let first := git_temp_clone source tagged_world in
  let second := git_temp_clone source (final first) in
  outcome first = Ret "/tmp/repo" /\
  remote (final first) = remote tagged_world /\
  outcome (branch_exists "/tmp/repo" "main" (final first)) = Ret true /\
  outcome (heads_getitem "/tmp/repo" "main" (final first)) = Raise IndexError /\
  outcome second = Raise IndexError.
Proof. by vm_compute. Qed.

End SyncProperties.

(** * Properties of the Slack methods *)

Module SlackProperties.
Import WebClient SlackSpec.

Ltac run :=
  unfold print, conversations_list, chat_postMessage, chat_update in *;
  unfold mbind, M_bind, mret, M_ret, raise, try_except, effect, gets, modify in *.

Lemma get_channel_id_eq c w :
  Slack._get_channel_id c w =
  (match conversations_list_at w (length (calls w)) with
   | Ret l => Ret (find_channel (strip_hash c) l)
   | Raise e => Raise e
   end, sent ConversationsList w).
Proof.
  unfold Slack._get_channel_id, strip_hash. run.
  by destruct (conversations_list_at w (length (calls w))).
Qed.

Lemma check_channel_exists_eq c w :
  Slack._check_channel_exists c w =
  (match conversations_list_at w (length (calls w)) with
   | Ret l => Ret (bool_decide (find_channel (strip_hash c) l <> None))
   | Raise e => Raise e
   end, sent ConversationsList w).
Proof.
  unfold Slack._check_channel_exists. unfold mbind, M_bind.
  rewrite get_channel_id_eq.
  by destruct (conversations_list_at w (length (calls w))).
Qed.

Lemma strip_hash_cases s :
  s = "#" +:+ strip_hash s \/ (startswith_hash s = false /\ strip_hash s = s).
Proof.
  unfold strip_hash. destruct (startswith_hash s) eqn:E; [|by right].
  left. apply startswith_hash_spec in E as [rest ->]. done.
Qed.

Lemma strip_hash_idem s :
  startswith_hash s = false -> strip_hash ("#" +:+ s) = strip_hash s.
Proof. intros H. unfold strip_hash at 2. rewrite H. done. Qed.

Lemma truthy_false v : truthy v = false <-> v = None \/ v = Some "".
Proof.
  destruct v as [[|c s]|]; simpl; split; try done; auto.
  - intros [|]; done.
Qed.

(** A reply without a parent: the listing is requested, then the call
    raises. *)
Lemma send_thread_reply_falsy c ts text w :
  truthy ts = false ->
  Slack.send_thread_reply c ts text w =
  (match conversations_list_at w (length (calls w)) with
   | Ret l =>
       Raise (ValueError
                (if bool_decide (find_channel (strip_hash (strip_hash c)) l <> None)
                 then "thread_ts is required"
                 else "Channel '" +:+ strip_hash c +:+ "' does not exist"))
   | Raise e => Raise e
   end, sent ConversationsList w).
Proof.
  intros Hts. unfold Slack.send_thread_reply. unfold mbind, M_bind.
  rewrite check_channel_exists_eq. fold (strip_hash c).
  destruct (conversations_list_at w (length (calls w))) as [l|e0]; [|done].
  destruct (bool_decide _); simpl; [by rewrite Hts|done].
Qed.

(** C8. With [thread_ts] None or empty, [send_thread_reply] raises: the
    only request it sends is the channel listing, so nothing is posted;
    and what it raises is a ValueError whenever the listing is answered (it
    is the listing's own exception otherwise). *)
Theorem send_thread_reply_requires_thread_ts
  (w : Client) (channel_name text : string) (thread_ts : option string) :
  thread_ts = None \/ thread_ts = Some "" ->
  let res := Slack.send_thread_reply channel_name thread_ts text w in
  (exists e, outcome res = Raise e /\
     (forall l, conversations_list_at w (length (calls w)) = Ret l ->
                exists msg, e = ValueError msg) /\
     (forall e', conversations_list_at w (length (calls w)) = Raise e' ->
                 e = e')) /\
  calls (final res) = calls w ++ [ConversationsList].
Proof.
  intros Hts res. apply truthy_false in Hts.
  subst res. rewrite (send_thread_reply_falsy _ _ _ _ Hts).
  split; [|done]. simpl.
  destruct (conversations_list_at w (length (calls w))) as [l|e0].
  - eexists. split; [done|]. split; [by eexists|done].
  - exists e0. split; [done|]. split; [done|]. by intros e' [= ->].
Qed.

(** With the usual listing the missing parent gives a ValueError and only
    the listing is requested; with a failing listing the call raises the
    listing's exception. *)
Lemma send_thread_reply_requires_thread_ts_witness :
  (exists msg, outcome (Slack.send_thread_reply "#general" None "hello" usual_client)
               = Raise (ValueError msg)) /\
  calls (final (Slack.send_thread_reply "#general" (Some "") "hello" usual_client))
  = [ConversationsList] /\
  outcome (Slack.send_thread_reply "#general" None "hello" down_client)
  = Raise (SlackApiError "ratelimited").
Proof.
  split; [|split].
  - destruct (send_thread_reply_requires_thread_ts usual_client "#general"
                "hello" None (or_introl eq_refl)) as [(e & He & Hv & _) _].
    destruct (Hv _ eq_refl) as [msg ->]. by exists msg.
  - exact (proj2 (send_thread_reply_requires_thread_ts usual_client "#general"
                    "hello" (Some "") (or_intror eq_refl))).
  - destruct (send_thread_reply_requires_thread_ts down_client "#general"
                "hello" None (or_introl eq_refl)) as [(e & He & _ & Hx) _].
    by rewrite He, (Hx _ eq_refl).
Defined.

(** *** Sending a message *)

Lemma send_message_eq c t w :
  Slack.send_message c t w =
  match conversations_list_at w (length (calls w)) with
  | Ret l =>
      if bool_decide (find_channel (strip_hash c) l <> None) then
        (chat_postMessage_at w (length (calls w ++ [ConversationsList]))
           (strip_hash c) t None,
         sent (ChatPostMessage (strip_hash c) t None) (sent ConversationsList w))
      else
        (Raise (ValueError ("Channel '" +:+ c +:+ "' does not exist")),
         sent ConversationsList w)
  | Raise e => (Raise e, sent ConversationsList w)
  end.
Proof.
  unfold Slack.send_message. unfold mbind at 1, M_bind at 1.
  rewrite check_channel_exists_eq. fold (strip_hash c).
  destruct (conversations_list_at w (length (calls w))) as [l|e0]; [|done].
  destruct (bool_decide _); simpl; [|done]. run. simpl.
  by destruct (chat_postMessage_at _ _ _ _ _).
Qed.

Lemma legacy_send_message_calls c t w :
  calls (final (SlackLegacy.send_message c t w))
  = calls w ++ [ChatPostMessage (strip_hash c) t None].
Proof.
  unfold SlackLegacy.send_message. fold (strip_hash c). run. simpl.
  destruct (chat_postMessage_at _ _ _ _ _) as [ts|e]; [done|].
  by destruct e.
Qed.

(** C9, the double "#".  Given "##general", the legacy class posts to
    "#general"; so does the current class when the listing has a channel of
    that name; and "##general" and "#general" post to different channels. *)
Lemma send_message_keeps_second_hash :
  calls (final (SlackLegacy.send_message "##general" "hello" usual_client))
  = [ChatPostMessage "#general" "hello" None] /\
  calls (final (Slack.send_message "##general" "hello" hash_named_client))
  = [ConversationsList; ChatPostMessage "#general" "hello" None] /\
  post_channel <$> calls (final (SlackLegacy.send_message "#general" "hello" usual_client))
  = [Some "general"] /\
  startswith_hash "#general" = true.
Proof. by vm_compute. Qed.

(** C9, as the code has it.  [send_message] removes exactly one leading
    "#": the channel posted to is the given name without its first "#";
    it begins with "#" only when the given name begins with "##"; and for
    a name that does not begin with "#", giving "#name" or "name" sends the
    same requests, to the same channel, and returns the same. *)
Theorem send_message_strips_one_hash (w : Client) (channel_name text : string) :
  let posted := ChatPostMessage (strip_hash channel_name) text None in
  calls (final (SlackLegacy.send_message channel_name text w))
  = calls w ++ [posted] /\
  (exists tl, calls (final (Slack.send_message channel_name text w))
              = calls w ++ ConversationsList :: tl /\
              (tl = [] \/ tl = [posted])) /\
  (channel_name = "#" +:+ strip_hash channel_name \/
   (startswith_hash channel_name = false /\
    strip_hash channel_name = channel_name)) /\
  (startswith_hash (strip_hash channel_name) = true ->
   exists rest, channel_name = "##" +:+ rest) /\
  (startswith_hash channel_name = false ->
   SlackLegacy.send_message ("#" +:+ channel_name) text w
   = SlackLegacy.send_message channel_name text w /\
   calls (final (Slack.send_message ("#" +:+ channel_name) text w))
   = calls (final (Slack.send_message channel_name text w)) /\
   (forall v, outcome (Slack.send_message ("#" +:+ channel_name) text w) = Ret v
              <-> outcome (Slack.send_message channel_name text w) = Ret v)).
Proof.
  intros posted. split; [apply legacy_send_message_calls|].
  split; [|split; [apply strip_hash_cases|split]].
  - rewrite send_message_eq.
    destruct (conversations_list_at w (length (calls w))) as [l|e0].
    + destruct (bool_decide _); simpl.
      * exists [posted]. split; [by rewrite <- app_assoc|by right].
      * exists []. auto.
    + exists []. auto.
  - intros Hh. destruct (strip_hash_cases channel_name) as [E|[E1 E2]].
    + apply startswith_hash_spec in Hh as [rest Hr].
      exists rest. rewrite E, Hr. done.
    + rewrite E2 in Hh. congruence.
  - intros Hn.
    pose proof (strip_hash_idem _ Hn) as Hi.
    split; [|split].
    + unfold SlackLegacy.send_message.
      fold (strip_hash ("#" +:+ channel_name)). fold (strip_hash channel_name).
      by rewrite Hi.
    + rewrite !send_message_eq, Hi.
      destruct (conversations_list_at w (length (calls w))) as [l|e0]; [|done].
      by destruct (bool_decide _).
    + intros v. rewrite !send_message_eq, Hi.
      destruct (conversations_list_at w (length (calls w))) as [l|e0]; [|done].
      by destruct (bool_decide _).
Qed.

Lemma send_message_strips_one_hash_witness :
  calls (final (Slack.send_message "#general" "hello" usual_client))
  = calls (final (Slack.send_message "general" "hello" usual_client)) /\
  (exists rest, "##general" = "##" +:+ rest).
Proof.
  split.
  - destruct (send_message_strips_one_hash usual_client "general" "hello")
      as (_ & _ & _ & _ & H).
    exact (proj1 (proj2 (H eq_refl))).
  - destruct (send_message_strips_one_hash usual_client "##general" "hello")
      as (_ & _ & _ & H & _).
    exact (H eq_refl).
Defined.

(** *** Editing a message *)

Lemma length_sent c w : length (calls (sent c w)) = S (length (calls w)).
Proof. simpl. rewrite length_app. simpl. lia. Qed.

Lemma find_channel_id c l cid :
  find_channel c l = Some cid ->
  Forall (fun ch => id ch <> "") l -> cid <> "".
Proof.
  induction l as [|ch l IH]; simpl; [done|].
  intros Hf Hall. inversion Hall as [|? ? Hch Hl]; subst.
  case_decide; [by simplify_eq|auto].
Qed.

Lemma truthy_Some cid : cid <> "" -> truthy (Some cid) = true.
Proof. by destruct cid. Qed.

Lemma edit_message_eq c ts text w :
  Slack.edit_message c ts text w =
  match conversations_list_at w (length (calls w)) with
  | Raise e => (Raise e, sent ConversationsList w)
  | Ret l =>
      if bool_decide (find_channel (strip_hash (strip_hash c)) l <> None) then
        if truthy ts then
          let w1 := sent ConversationsList w in
          let w2 := sent ConversationsList w1 in
          match conversations_list_at w (length (calls w1)) with
          | Raise e => (Raise e, w2)
          | Ret l2 =>
              let channel_id := find_channel (strip_hash (strip_hash c)) l2 in
              if truthy channel_id then
                (chat_update_at w (length (calls w2)) (default "" channel_id) ts text,
                 sent (ChatUpdate (default "" channel_id) ts text) w2)
              else
                (Ret false,
                 {| calls := calls w2;
                    conversations_list_at := conversations_list_at w;
                    chat_postMessage_at := chat_postMessage_at w;
                    chat_update_at := chat_update_at w;
                    stdout := stdout w ++ ["Error: Channel '" +:+ strip_hash c
                                           +:+ "' not found."] |})
          end
        else (Raise (ValueError "message_ts is required"), sent ConversationsList w)
      else
        (Raise (ValueError ("Channel '" +:+ strip_hash c +:+ "' does not exist")),
         sent ConversationsList w)
  end.
Proof.
  unfold Slack.edit_message. fold (strip_hash c).
  unfold mbind at 1, M_bind at 1. rewrite check_channel_exists_eq.
  destruct (conversations_list_at w (length (calls w))) as [l|e0]; [|done].
  destruct (bool_decide _); simpl; [|done].
  destruct (truthy ts); simpl; [|done].
  unfold mbind at 1, M_bind at 1. rewrite get_channel_id_eq. simpl.
  destruct (conversations_list_at w _) as [l2|e2]; [|done].
  destruct (truthy _); run; simpl; [|done].
  by destruct (chat_update_at _ _ _ _ _).
Qed.

(** C10, at a listing whose channel has an empty id.  The listing is the
    same at both requests and [_check_channel_exists] answers true, yet
    [edit_message] takes the "not found" branch: it prints the message,
    returns False and sends no update. *)
Lemma edit_message_not_found_reached :
  let res := Slack.edit_message "general" (Some "1700000000.000100") "done"
               blank_id_client in
  conversations_list_at blank_id_client 1 = conversations_list_at blank_id_client 0 /\
  outcome (Slack._check_channel_exists "general" blank_id_client) = Ret true /\
  outcome (Slack._get_channel_id "general" blank_id_client) = Ret (Some "") /\
  outcome res = Ret false /\
  stdout (final res) = ["Error: Channel 'general' not found."] /\
  calls (final res) = [ConversationsList; ConversationsList].
Proof. by vm_compute. Qed.

(** C10, as the code has it.  With the same listing at both requests of an
    [edit_message] call: [_check_channel_exists] having returned true, the
    following [_get_channel_id] returns an identifier, not None; and when
    the identifiers of the listing are non-empty strings, the "not found"
    branch is not taken: nothing is printed, and a call that returns has
    sent the update. *)
Theorem edit_message_not_found_unreachable
  (w : Client) (channel_name new_text : string) (message_ts : option string) :
  let n := length (calls w) in
  let res := Slack.edit_message channel_name message_ts new_text w in
  conversations_list_at w (S n) = conversations_list_at w n ->
  (forall c w1,
      Slack._check_channel_exists c w = (Ret true, w1) ->
      exists cid, outcome (Slack._get_channel_id c w1) = Ret (Some cid)) /\
  ((forall l, conversations_list_at w n = Ret l ->
              Forall (fun ch => id ch <> "") l) ->
   stdout (final res) = stdout w /\
   (forall b, outcome res = Ret b ->
      exists cid, cid <> "" /\
        calls (final res)
        = calls w ++ [ConversationsList; ConversationsList;
                      ChatUpdate cid message_ts new_text])).
Proof.
  intros n res Hsame. split.
  - intros c w1. rewrite check_channel_exists_eq. fold n.
    destruct (conversations_list_at w n) as [l|e0] eqn:El; [|done].
    intros [= Hb <-]. rewrite get_channel_id_eq, length_sent. fold n.
    simpl. rewrite Hsame. simpl.
    apply bool_decide_eq_true in Hb.
    destruct (find_channel (strip_hash c) l) as [cid|]; [by exists cid|done].
  - intros Hids. subst res. rewrite edit_message_eq. fold n.
    destruct (conversations_list_at w n) as [l|e0] eqn:El; [|done].
    specialize (Hids l eq_refl).
    destruct (bool_decide _) eqn:Hb; [|done].
    destruct (truthy message_ts); [|done].
    cbv zeta. rewrite length_sent. fold n. rewrite Hsame.
    apply bool_decide_eq_true in Hb.
    destruct (find_channel _ l) as [cid|] eqn:Hf; [|done].
    pose proof (find_channel_id _ _ _ Hf Hids) as Hne.
    rewrite (truthy_Some _ Hne). simpl.
    split; [done|]. intros b _. exists cid. split; [done|].
    by rewrite <- !app_assoc.
Qed.

Lemma edit_message_not_found_unreachable_witness :
  stdout (final (Slack.edit_message "#general" (Some "1700000000.000100")
                   "done" usual_client)) = [] /\
  exists cid, outcome (Slack._get_channel_id "#general"
                         (final (Slack._check_channel_exists "#general" usual_client)))
              = Ret (Some cid).
Proof.
  destruct (edit_message_not_found_unreachable usual_client "#general" "done"
              (Some "1700000000.000100") eq_refl) as [H1 H2].
  split.
  - refine (proj1 (H2 _)). intros l [= <-].
    repeat constructor; discriminate.
  - exact (H1 "#general" _ eq_refl).
Defined.

End SlackProperties.

(** * Further properties of the synchroniser *)

Module SyncExtras.
Import Git GitSpec GitFacts Scenario MoreScenarios OpSpec SyncProperties.

(** *** The paths a call works on *)

Lemma confined_cons s p o l :
  confined s p o -> Forall (confined s p) l -> Forall (confined s p) (o :: l).
Proof. by constructor. Qed.

Lemma sync_result_confined s p w :
  exists l, ops (final (sync_result s p w)) = ops w ++ l /\
            Forall (confined s p) l /\ (length l <= 2)%nat.
Proof.
  assert (Hrm : confined s p (OpRmtree p)) by (split; [done|by left]).
  assert (Hcl : confined s p (OpClone s p)) by (split; [done|by right]).
  assert (Hco : forall b, confined s p (OpCheckout p b))
    by (split; [done|by left]).
  assert (Hre : forall rev, confined s p (OpReset p rev))
    by (split; [done|by left]).
  unfold sync_result. destruct (fs w !! p) as [[e|r]|].
  - destruct e;
      try (exists []; rewrite app_nil_r; split; [done|]; split;
           [constructor|simpl; lia]).
    exists [OpRmtree p; OpClone s p]. rewrite reclone_result_ops.
    split; [done|]. split; [by repeat apply confined_cons|simpl; lia].
  - destruct (reuse_result_ops p "main" r w) as (lm & Hm & Hmn & Hms).
    destruct (reuse_result_ops p "master" r w) as (ls & Hs & Hsn & Hss).
    assert (Hreuse : forall b l,
              (heads r !! b = None -> l = []) ->
              (is_Some (heads r !! b) ->
               exists tl, l = OpCheckout p b :: tl /\
                          (tl = [] \/ tl = [OpReset p ("origin/" +:+ b)])) ->
              Forall (confined s p) l /\ (length l <= 2)%nat).
    { intros b l Hn Hsm. destruct (heads r !! b) as [c|] eqn:Hh.
      - destruct (Hsm (ex_intro _ c eq_refl)) as (tl & -> & [->| ->]);
          (split; [by repeat apply confined_cons|simpl; lia]).
      - rewrite (Hn eq_refl). split; [constructor|simpl; lia]. }
    destruct (bool_decide ("main" ∈ ref_names r)).
    + exists lm. split; [done|]. by apply (Hreuse "main").
    + destruct (bool_decide ("master" ∈ ref_names r)).
      * exists ls. split; [done|]. by apply (Hreuse "master").
      * exists [OpRmtree p; OpClone s p]. rewrite reclone_result_ops.
        split; [done|]. split; [by repeat apply confined_cons|simpl; lia].
  - exists [OpClone s p]. rewrite clone_result_ops.
    split; [done|]. split; [by repeat apply confined_cons|simpl; lia].
Qed.

(** X1. A call works on no path but the local path of its source: every
    operation it issues, whether the call returns or raises, is a deletion,
    clone, checkout, reset or archival of that path, and the only source it
    clones is its argument; it issues at most three operations, and it
    leaves the set of reachable sources and the recorder as they were. *)
Theorem git_temp_clone_confined_to_local_path (S : string) (w : World) :
  exists l,
    ops (final (git_temp_clone S w)) = ops w ++ l /\
    Forall (confined S (local_path S)) l /\
    (length l <= 3)%nat /\
    remote (final (git_temp_clone S w)) = remote w /\
    replay (final (git_temp_clone S w)) = replay w.
Proof.
  destruct (git_temp_clone_ops S w) as (hk & Hl & Hhk).
  destruct (sync_result_confined S (local_path S) w) as (l & Hs & Hall & Hlen).
  destruct (git_temp_clone_frame S w) as [Hrem Hrep].
  exists (l ++ hk). split; [by rewrite Hl, Hs, <- app_assoc|].
  split; [|split; [|by split]].
  - apply Forall_app. split; [done|].
    destruct Hhk as [->| ->]; [constructor|].
    apply confined_cons; [|constructor]. split; [done|by left].
  - rewrite length_app. destruct Hhk as [->| ->]; simpl; lia.
Qed.

(** X2. The re-clone deletes before it clones.  When the local path exists,
    [branch_exists] answers false for "main" and "master" and the source
    cannot be cloned, the call raises GitCommandError after the deletion:
    nothing is left at the local path. *)
Theorem failed_reclone_leaves_nothing (S : string) (w : World) :
  let p := local_path S in
  let res := git_temp_clone S w in
  is_Some (fs w !! p) ->
  outcome (branch_exists p "main" w) = Ret false ->
  outcome (branch_exists p "master" w) = Ret false ->
  remote w !! S = None ->
  outcome res = Raise GitCommandError /\
  fs (final res) !! p = None /\
  ops (final res) = ops w ++ [OpRmtree p; OpClone S p].
Proof.
  intros p res Hex Hm Hms Hrem.
  destruct (sync_result_fallback S p w Hex Hm Hms) as (w0 & Hs & Hfs & Hops & Hr0).
  assert (Hre : reclone_result S p w0
                = (Raise GitCommandError,
                   add_op (OpClone S p)
                     (set_fs (delete p)
                        (add_op (OpRmtree p)
                           (add_out ("Cloning repository from " +:+ S)
                              (add_out ("Repository at " +:+ p
                                        +:+ " does not have main or master branch")
                                 w0)))))).
  { unfold reclone_result, clone_result. simpl. by rewrite Hr0, Hrem. }
  rewrite Hre in Hs. subst res.
  rewrite (git_temp_clone_sync_raised _ _ _ _ Hs). simpl.
  split; [done|]. split; [apply lookup_delete_eq|].
  by rewrite Hops, <- app_assoc.
Qed.

Lemma failed_reclone_leaves_nothing_witness :
  outcome (git_temp_clone source offline_world) = Raise GitCommandError /\
  fs (final (git_temp_clone source offline_world)) !! "/tmp/repo" = None.
Proof.
  assert (Hex : is_Some (fs offline_world !! local_path source))
    by (by eexists).
  destruct (failed_reclone_leaves_nothing source offline_world
              Hex eq_refl eq_refl eq_refl) as (H1 & H2 & _).
  split; [exact H1|exact H2].
Defined.

(** X3. A reference that is not a branch.  When the working copy has a
    reference named "main" (a tag, say) and no branch "main", the call
    raises IndexError having printed one line: no operation is issued, the
    working copy is untouched, and "master" is not tried.  The same holds of
    "master" when no reference is named "main". *)
Theorem reference_without_branch_raises (S : string) (w : World) (r : LocalRepo) :
  let p := local_path S in
  fs w !! p = Some (RepoDir r) ->
  ("main" ∈ ref_names r -> heads r !! "main" = None ->
   git_temp_clone S w
   = (Raise IndexError, add_out ("Using existing repository at " +:+ p) w)) /\
  ("main" ∉ ref_names r -> "master" ∈ ref_names r -> heads r !! "master" = None ->
   git_temp_clone S w
   = (Raise IndexError, add_out ("Using existing repository at " +:+ p) w)).
Proof.
  intros p Hfs. split.
  - intros Hin Hh. apply git_temp_clone_sync_raised. fold p.
    unfold sync_result. rewrite Hfs.
    rewrite bool_decide_eq_true_2 by done.
    unfold reuse_result. by rewrite Hh.
  - intros Hnin Hin Hh. apply git_temp_clone_sync_raised. fold p.
    unfold sync_result. rewrite Hfs.
    rewrite bool_decide_eq_false_2 by done.
    rewrite bool_decide_eq_true_2 by done.
    unfold reuse_result. by rewrite Hh.
Qed.

Lemma reference_without_branch_raises_witness :
  outcome (git_temp_clone source tagged_copy_world) = Raise IndexError /\
  fs (final (git_temp_clone source tagged_copy_world)) = fs tagged_copy_world /\
  ops (final (git_temp_clone source tagged_copy_world)) = [].
Proof.
  destruct (reference_without_branch_raises source tagged_copy_world tagged_repo
              eq_refl) as [H _].
  assert (Hin : "main" ∈ ref_names tagged_repo).
  { apply (bool_decide_unpack _). by vm_compute. }
  rewrite (H Hin eq_refl). by repeat split.
Defined.

(** *** What a call that returns leaves *)

Lemma reuse_result_returned_from p b r w w1 :
  reuse_result p b r w = (Ret tt, w1) ->
  is_Some (heads r !! b) /\ ~ checkout_refused b r.
Proof.
  intros H. unfold reuse_result in H.
  destruct (heads r !! b) as [c|] eqn:Hh; [|done].
  split; [by eexists|]. intros Hrf.
  apply (do_checkout_None b r (ex_intro _ c Hh)) in Hrf.
  by rewrite Hrf in H.
Qed.

Lemma sync_result_returned s p w w1 :
  sync_result s p w = (Ret tt, w1) ->
  (exists rr, remote w !! s = Some rr /\
              repo_at p w1 = Some (fresh_clone rr) /\
              (fs w !! p = None \/
               (outcome (branch_exists p "main" w) = Ret false /\
                outcome (branch_exists p "master" w) = Ret false))) \/
  (exists r b t, fs w !! p = Some (RepoDir r) /\
                 (b = "main" \/ (b = "master" /\ "main" ∉ ref_names r)) /\
                 is_Some (heads r !! b) /\ ~ checkout_refused b r /\
                 rev_parse r ("origin/" +:+ b) = Some t /\
                 repo_at p w1 = Some (reset_to b t r)).
Proof.
  intros E. rewrite !branch_exists_eq. unfold sync_result in E.
  destruct (fs w !! p) as [[e|r]|] eqn:Hfs.
  - destruct e; try done. left. unfold reclone_result in E.
    destruct (clone_result_returned _ _ _ _ E) as (rr & Hrr & Hrepo).
    exists rr. split; [done|]. split; [done|]. by right.
  - destruct (bool_decide ("main" ∈ ref_names r)) eqn:Hm.
    + right. destruct (reuse_result_returned _ _ _ _ _ E) as (t & Ht & Hr).
      destruct (reuse_result_returned_from _ _ _ _ _ E) as [Hh Hnr].
      exists r, "main", t. split; [done|]. split; [by left|]. by repeat split.
    + apply bool_decide_eq_false in Hm.
      destruct (bool_decide ("master" ∈ ref_names r)) eqn:Hms.
      * right. destruct (reuse_result_returned _ _ _ _ _ E) as (t & Ht & Hr).
        destruct (reuse_result_returned_from _ _ _ _ _ E) as [Hh Hnr].
        exists r, "master", t. split; [done|]. split; [by right|].
        by repeat split.
      * left. unfold reclone_result in E.
        destruct (clone_result_returned _ _ _ _ E) as (rr & Hrr & Hrepo).
        exists rr. split; [done|]. split; [done|]. by right.
  - left. destruct (clone_result_returned _ _ _ _ E) as (rr & Hrr & Hrepo).
    exists rr. split; [done|]. split; [done|]. by left.
Qed.

(** X4. A call returns by a clone or by a reset, and only from the states
    that lead there.  After a call that returns, the returned path is the
    local path of the source and holds a working copy, which is either the
    clone of the source, the path having been absent or [branch_exists]
    having answered false for "main" and "master"; or the working copy that
    was there, which had the branch "main" (or "master", no reference being
    named "main") and accepted its checkout, now on that branch with the
    branch at the commit "origin/main" (or "origin/master") resolved to in
    it, its tags and remote references as before. *)
Theorem returned_call_cloned_or_reset (S : string) (w : World) (v : string) :
  let res := git_temp_clone S w in
  outcome res = Ret v ->
  v = local_path S /\
  exists r', repo_at v (final res) = Some r' /\
    ((exists rr, remote w !! S = Some rr /\ r' = fresh_clone rr /\
                 (fs w !! v = None \/
                  (outcome (branch_exists v "main" w) = Ret false /\
                   outcome (branch_exists v "master" w) = Ret false))) \/
     (exists r b t, fs w !! v = Some (RepoDir r) /\
                    (b = "main" \/ (b = "master" /\ "main" ∉ ref_names r)) /\
                    is_Some (heads r !! b) /\ ~ checkout_refused b r /\
                    rev_parse r ("origin/" +:+ b) = Some t /\
                    HEAD r' = OnBranch b /\ heads r' = <[b := t]> (heads r) /\
                    tags r' = tags r /\ remotes r' = remotes r)).
Proof.
  intros res Hout. subst res. set (p := local_path S).
  destruct (sync_result S p w) as [[[]|e] w1] eqn:E.
  2:{ unfold p in E. by rewrite (git_temp_clone_sync_raised _ _ _ _ E) in Hout. }
  destruct (git_temp_clone_sync_returned _ _ _ E) as (Ho & Hf & _).
  fold p in Ho, Hf. rewrite Ho in Hout.
  destruct (hook_error w p); [done|]. injection Hout as <-.
  split; [done|].
  assert (Hrepo : repo_at p (final (git_temp_clone S w)) = repo_at p w1)
    by (unfold repo_at; by rewrite Hf).
  rewrite Hrepo.
  destruct (sync_result_returned _ _ _ _ E)
    as [(rr & Hrr & Hr' & Hfrom)|(r & b & t & Hfs & Hb & Hh & Hnr & Hrev & Hr')].
  - exists (fresh_clone rr). split; [done|]. left. by exists rr.
  - exists (reset_to b t r). split; [done|]. right.
    exists r, b, t. by repeat split.
Qed.

Lemma returned_call_cloned_or_reset_witness :
  heads <$> repo_at "/tmp/repo" (final (git_temp_clone source master_world))
  = Some (<["master" := 6]> (heads master_repo)).
Proof.
  destruct (returned_call_cloned_or_reset source master_world
              "/tmp/repo" eq_refl) as (_ & r' & Hr & H).
  rewrite Hr. simpl. f_equal.
  destruct H as [(rr & Hrr & -> & _)
                |(r & b & t & Hfs & Hb & _ & _ & Hrev & _ & -> & _)].
  - injection Hrr as <-. discriminate Hr.
  - injection Hfs as <-. destruct Hb as [->|[-> _]]; [discriminate Hrev|].
    by injection Hrev as <-.
Defined.

Lemma git_temp_clone_twice_witness :
  outcome (git_temp_clone source
             (final (git_temp_clone source empty_world))) = Ret "/tmp/repo" /\
  tip <$> repo_at "/tmp/repo"
            (final (git_temp_clone source
                      (final (git_temp_clone source empty_world))))
  = tip <$> repo_at "/tmp/repo" (final (git_temp_clone source empty_world)).
Proof.
  assert (Htags : forall rr, remote empty_world !! source = Some rr ->
                             plain_tags rr).
  { intros rr [= <-]. by repeat split. }
  destruct (git_temp_clone_twice source empty_world "/tmp/repo" eq_refl Htags)
    as (_ & H1 & _ & H2).
  split; [exact H1|exact H2].
Defined.

(** *** Sources that share a local path *)

Lemma split_after_separator sep pre rest :
  exists x xs, split sep (pre +:+ String sep rest) = x :: xs /\ xs <> [] /\
               last xs = last (split sep rest).
Proof.
  induction pre as [|c pre (x & xs & IH & Hne & Hl)].
  - change ("" +:+ String sep rest) with (String sep rest). simpl.
    rewrite decide_True by done.
    exists "", (split sep rest). split; [done|].
    split; [apply split_nonempty|done].
  - change (String c pre +:+ String sep rest)
      with (String c (pre +:+ String sep rest)).
    simpl. rewrite IH. case_decide.
    + exists "", (x :: xs). split; [done|]. split; [done|].
      rewrite <- Hl. by destruct xs.
    + by exists (String c x), xs.
Qed.

Lemma split_without_separator sep seg :
  contains_char sep seg = false -> split sep seg = [seg].
Proof.
  induction seg as [|c seg IH]; simpl; [done|].
  intros H. apply orb_false_iff in H as [Hc Hs].
  apply bool_decide_eq_false in Hc.
  rewrite decide_False by done. by rewrite (IH Hs).
Qed.

Lemma local_path_of_last_segment pre seg :
  contains_char "/" seg = false ->
  local_path (pre +:+ "/" +:+ seg) = "/tmp/" +:+ seg.
Proof.
  intros Hs. unfold local_path.
  change (pre +:+ "/" +:+ seg) with (pre +:+ String "/" seg).
  destruct (split_after_separator "/" pre seg) as (x & xs & -> & Hne & Hl).
  rewrite (split_without_separator _ _ Hs) in Hl.
  replace (last (x :: xs)) with (last xs) by (by destruct xs).
  by rewrite Hl.
Qed.

(** X6. The local path keeps the last segment of the source only, and the
    reuse of a working copy does not look at the source: two sources with
    the same last segment have the same local path, and when that path
    holds a working copy with a reference named "main" or "master", a call
    for either source does exactly the same; the working copy of one is
    returned for the other. *)
Theorem same_last_segment_same_working_copy (pre1 pre2 seg : string) :
  contains_char "/" seg = false ->
  local_path (pre1 +:+ "/" +:+ seg) = "/tmp/" +:+ seg /\
  local_path (pre2 +:+ "/" +:+ seg) = "/tmp/" +:+ seg /\
  (forall w r,
      fs w !! ("/tmp/" +:+ seg) = Some (RepoDir r) ->
      "main" ∈ ref_names r \/ "master" ∈ ref_names r ->
      git_temp_clone (pre1 +:+ "/" +:+ seg) w
      = git_temp_clone (pre2 +:+ "/" +:+ seg) w).
Proof.
  intros Hs.
  pose proof (local_path_of_last_segment pre1 seg Hs) as H1.
  pose proof (local_path_of_last_segment pre2 seg Hs) as H2.
  split; [done|]. split; [done|].
  intros w r Hfs Hin. rewrite !git_temp_clone_eq, H1, H2.
  unfold sync_result. rewrite Hfs.
  destruct (bool_decide ("main" ∈ ref_names r)) eqn:Hm; [done|].
  destruct (bool_decide ("master" ∈ ref_names r)) eqn:Hms; [done|].
  apply bool_decide_eq_false in Hm, Hms. by destruct Hin.
Qed.

Lemma same_last_segment_same_working_copy_witness :
  git_temp_clone other_source stale_world = git_temp_clone source stale_world.
Proof.
  destruct (same_last_segment_same_working_copy
              "git@example.org:team" "https://example.com/org" "repo" eq_refl)
    as (_ & _ & H).
  refine (H stale_world stale_repo eq_refl (or_introl _)).
  apply (bool_decide_unpack _). by vm_compute.
Defined.

(** *** The recording hook *)

(** X7. The archival is requested only for a synchronisation that returned
    and only of a recorder that records: a call whose synchronisation
    raised ends there; with no recorder, or one that does not record, the
    call returns the path and issues nothing after the synchronisation,
    whatever the archival would have done; with a recording recorder the
    archival of the local path is the one operation added. *)
Theorem archival_follows_successful_sync (S : string) (w : World) :
  let p := local_path S in
  (forall e w1, sync S p w = (Raise e, w1) ->
     git_temp_clone S w = (Raise e, w1)) /\
  (forall w1, sync S p w = (Ret tt, w1) ->
     (hook_active w = false -> git_temp_clone S w = (Ret p, w1)) /\
     (hook_active w = true ->
      ops (final (git_temp_clone S w)) = ops w1 ++ [OpArchive p])).
Proof.
  intros p. split.
  - intros e w1 Hs. rewrite sync_eq in Hs. by apply git_temp_clone_sync_raised.
  - intros w1 Hs. rewrite sync_eq in Hs.
    destruct (sync_frame S p w) as [_ Hrep]. rewrite Hs in Hrep. simpl in Hrep.
    split.
    + intros Hna. rewrite git_temp_clone_eq. fold p. rewrite Hs.
      unfold hook_result. unfold hook_active in Hna. rewrite Hrep.
      destruct (replay w) as [r|]; [|done]. by rewrite Hna.
    + intros Ha.
      destruct (git_temp_clone_sync_returned _ _ _ Hs) as (_ & _ & Hops).
      fold p in Hops. by rewrite Hops, Ha.
Qed.

Lemma archival_follows_successful_sync_witness :
  git_temp_clone source idle_world
  = (Ret "/tmp/repo", final (sync source "/tmp/repo" idle_world)) /\
  ops (final (git_temp_clone source recorded_world))
  = [OpClone source "/tmp/repo"; OpArchive "/tmp/repo"].
Proof.
  split.
  - destruct (archival_follows_successful_sync source idle_world) as [_ H].
    exact (proj1 (H (final (sync source "/tmp/repo" idle_world)) eq_refl) eq_refl).
  - destruct (archival_follows_successful_sync source recorded_world) as [_ H].
    exact (proj2 (H (final (sync source "/tmp/repo" recorded_world)) eq_refl) eq_refl).
Defined.

(** *** A working copy without its remote reference *)

(** X8. The reuse has no fallback.  When the working copy has a branch
    "main", git accepts its checkout, and "origin/main" resolves to nothing
    in it, the call raises GitCommandError: "main" is left checked out, no
    reset takes place, and the call neither tries "master" nor clones. *)
Theorem reuse_without_remote_reference_raises (S : string) (w : World)
  (r r1 : LocalRepo) :
  let p := local_path S in
  let res := git_temp_clone S w in
  fs w !! p = Some (RepoDir r) ->
  do_checkout "main" r = Some r1 ->
  rev_parse r "origin/main" = None ->
  outcome res = Raise GitCommandError /\
  ops (final res) = ops w ++ [OpCheckout p "main"; OpReset p "origin/main"] /\
  repo_at p (final res) = Some r1 /\ HEAD r1 = OnBranch "main" /\
  heads r1 = heads r.
Proof.
  intros p res Hfs Hco Hrev.
  destruct (do_checkout_Some _ _ _ Hco) as (Eh & Et & Er & EH).
  assert (is_Some (heads r !! "main")) as [c Hh].
  { unfold do_checkout in Hco. destruct (heads r !! "main"); [by eexists|done]. }
  assert (Hs : sync_result S p w
               = (Raise GitCommandError,
                  add_op (OpReset p "origin/main")
                    (set_fs <[p := RepoDir r1]>
                       (add_op (OpCheckout p "main")
                          (add_out ("Using existing repository at " +:+ p) w))))).
  { unfold sync_result. rewrite Hfs.
    rewrite bool_decide_eq_true_2 by (apply head_in_refs; by eexists).
    unfold reuse_result. rewrite Hh, Hco.
    change ("origin/" +:+ "main") with "origin/main".
    unfold do_reset. by rewrite (rev_parse_ext r r1 _ Eh Et Er), Hrev. }
  subst res. rewrite (git_temp_clone_sync_raised _ _ _ _ Hs). simpl.
  split; [done|]. split; [by rewrite <- app_assoc|].
  unfold repo_at. simpl. by rewrite lookup_insert_eq.
Qed.

Lemma reuse_without_remote_reference_raises_witness :
  outcome (git_temp_clone source local_only_world) = Raise GitCommandError /\
  (HEAD <$> repo_at "/tmp/repo" (final (git_temp_clone source local_only_world)))
  = Some (OnBranch "main").
Proof.
  destruct (reuse_without_remote_reference_raises source local_only_world
              local_only_repo _ eq_refl eq_refl eq_refl)
    as (H1 & _ & H3 & H4 & _).
  split; [exact H1|].
  etrans; [exact (f_equal (fmap HEAD) H3)|]. exact (f_equal Some H4).
Defined.

End SyncExtras.

(** * Further properties of the Slack methods *)

Module SlackExtras.
Import WebClient SlackSpec SlackFile MoreServices SlackProperties.

(** *** Looking a channel up *)

Lemma find_channel_None c l :
  find_channel c l = None <-> forall ch, ch ∈ l -> name ch <> c.
Proof.
  induction l as [|ch0 l IH]; simpl.
  - split; [|done]. intros _ ch Hin. by apply elem_of_nil in Hin.
  - case_decide as Hd.
    + split; [done|]. intros H. destruct (H ch0); [left|done].
    + rewrite IH. split.
      * intros H ch Hin. apply elem_of_cons in Hin as [->|Hin]; auto.
      * intros H ch Hin. apply H. by right.
Qed.

Lemma find_channel_Some c l i :
  find_channel c l = Some i <->
  exists l1 ch l2, l = l1 ++ ch :: l2 /\ name ch = c /\ id ch = i /\
                   forall ch', ch' ∈ l1 -> name ch' <> c.
Proof.
  induction l as [|ch0 l IH]; simpl.
  - split; [done|]. intros (l1 & ch & l2 & H & _). by destruct l1.
  - case_decide as Hd.
    + split.
      * intros [= <-]. exists [], ch0, l. repeat split; try done.
        intros ch' Hin. by apply elem_of_nil in Hin.
      * intros (l1 & ch & l2 & Hl & Hn & Hi & Hno).
        destruct l1 as [|ch1 l1]; simpl in Hl; simplify_eq; [done|].
        destruct (Hno ch1); [left|done].
    + rewrite IH. split.
      * intros (l1 & ch & l2 & -> & Hn & Hi & Hno).
        exists (ch0 :: l1), ch, l2. repeat split; try done.
        intros ch' Hin. apply elem_of_cons in Hin as [->|Hin]; auto.
      * intros (l1 & ch & l2 & Hl & Hn & Hi & Hno).
        destruct l1 as [|ch1 l1]; simpl in Hl; simplify_eq.
        exists l1, ch, l2. repeat split; try done.
        intros ch' Hin. apply Hno. by right.
Qed.

(** X9. With the listing answered, [_get_channel_id] sends that one request
    and returns the id of the first listed channel whose name is the given
    name without one leading "#": None exactly when no listed channel has
    that name; and [_check_channel_exists] answers whether it is not None. *)
Theorem get_channel_id_first_match (w : Client) (c : string) (l : list Channel) :
  conversations_list_at w (length (calls w)) = Ret l ->
  exists r,
    Slack._get_channel_id c w = (Ret r, sent ConversationsList w) /\
    Slack._check_channel_exists c w
    = (Ret (bool_decide (r <> None)), sent ConversationsList w) /\
    (r = None <-> forall ch, ch ∈ l -> name ch <> strip_hash c) /\
    (forall i, r = Some i <->
       exists l1 ch l2, l = l1 ++ ch :: l2 /\ name ch = strip_hash c /\
                        id ch = i /\
                        forall ch', ch' ∈ l1 -> name ch' <> strip_hash c).
Proof.
  intros Hl. exists (find_channel (strip_hash c) l).
  rewrite get_channel_id_eq, check_channel_exists_eq, Hl.
  split; [done|]. split; [done|].
  split; [apply find_channel_None|]. intros i. apply find_channel_Some.
Qed.

Lemma get_channel_id_first_match_witness :
  outcome (Slack._get_channel_id "#general" twin_client) = Ret (Some "C01").
Proof.
  destruct (get_channel_id_first_match twin_client "#general" _ eq_refl)
    as (r & -> & _ & _ & H).
  simpl. f_equal. apply H.
  exists [mkChannel "random" "C09"], (mkChannel "general" "C01"),
         [mkChannel "general" "C02"].
  repeat split. intros ch' Hin. apply list_elem_of_singleton in Hin as ->.
  discriminate.
Defined.

Lemma listed_not_None c l :
  (exists ch, ch ∈ l /\ name ch = c) -> find_channel c l <> None.
Proof.
  intros (ch & Hin & Hn) Hnone.
  by apply (proj1 (find_channel_None c l) Hnone ch Hin).
Qed.

(** *** Sending *)

(** X10. With the listing answered, [send_message] posts only to a listed
    channel.  When no listed channel has the given name without one
    leading "#", it raises a ValueError naming the channel as given, the
    listing being its only request; otherwise it sends one post, to that
    name, without a thread, and returns or raises what the post does. *)
Theorem send_message_needs_listed_channel
  (w : Client) (c t : string) (l : list Channel) :
  conversations_list_at w (length (calls w)) = Ret l ->
  ((forall ch, ch ∈ l -> name ch <> strip_hash c) ->
   Slack.send_message c t w
   = (Raise (ValueError ("Channel '" +:+ c +:+ "' does not exist")),
      sent ConversationsList w)) /\
  ((exists ch, ch ∈ l /\ name ch = strip_hash c) ->
   Slack.send_message c t w
   = (chat_postMessage_at w (S (length (calls w))) (strip_hash c) t None,
      sent (ChatPostMessage (strip_hash c) t None) (sent ConversationsList w))).
Proof.
  intros Hl. rewrite send_message_eq, Hl. split.
  - intros Hno. apply find_channel_None in Hno.
    by rewrite bool_decide_eq_false_2 by (by rewrite Hno; intros []).
  - intros Hex. apply listed_not_None in Hex.
    rewrite bool_decide_eq_true_2 by done.
    by rewrite length_app, Nat.add_1_r.
Qed.

Lemma send_message_needs_listed_channel_witness :
  outcome (Slack.send_message "#nowhere" "hello" usual_client)
  = Raise (ValueError "Channel '#nowhere' does not exist") /\
  calls (final (Slack.send_message "#general" "hello" usual_client))
  = [ConversationsList; ChatPostMessage "general" "hello" None].
Proof.
  split.
  - destruct (send_message_needs_listed_channel usual_client "#nowhere" "hello"
                _ eq_refl) as [H _].
    rewrite H; [done|].
    intros ch Hin. repeat (apply elem_of_cons in Hin as [->|Hin]; [discriminate|]).
    by apply elem_of_nil in Hin.
  - destruct (send_message_needs_listed_channel usual_client "#general" "hello"
                _ eq_refl) as [_ H].
    rewrite H; [done|].
    exists (mkChannel "general" "C01"). split; [apply list_elem_of_here|done].
Defined.

Lemma send_thread_reply_eq c ts text w :
  Slack.send_thread_reply c ts text w =
  match conversations_list_at w (length (calls w)) with
  | Ret l =>
      if bool_decide (find_channel (strip_hash (strip_hash c)) l <> None) then
        if truthy ts then
          (match chat_postMessage_at w (length (calls w ++ [ConversationsList]))
                   (strip_hash c) text ts with
           | Ret (Some reply_ts) => Ret (Some reply_ts)
           | Ret None => Raise AttributeError
           | Raise e => Raise e
           end,
           sent (ChatPostMessage (strip_hash c) text ts) (sent ConversationsList w))
        else (Raise (ValueError "thread_ts is required"), sent ConversationsList w)
      else
        (Raise (ValueError ("Channel '" +:+ strip_hash c +:+ "' does not exist")),
         sent ConversationsList w)
  | Raise e => (Raise e, sent ConversationsList w)
  end.
Proof.
  unfold Slack.send_thread_reply. fold (strip_hash c).
  unfold mbind at 1, M_bind at 1. rewrite check_channel_exists_eq.
  destruct (conversations_list_at w (length (calls w))) as [l|e0]; [|done].
  destruct (bool_decide _); simpl; [|done].
  destruct (truthy ts); simpl; [|done]. run. simpl.
  by destruct (chat_postMessage_at _ _ _ _ _) as [[ts'|]|e].
Qed.

(** X11. With the listing answered, a parent given and the channel found,
    [send_thread_reply] sends one post, in the thread, to the given name
    without one leading "#", the channel having been looked up without two;
    it returns the "ts" of the answer, and when the answer has none it
    raises AttributeError, the reply having been posted. *)
Theorem send_thread_reply_posts_in_thread
  (w : Client) (c text : string) (ts : option string) (l : list Channel) :
  conversations_list_at w (length (calls w)) = Ret l ->
  truthy ts = true ->
  (exists ch, ch ∈ l /\ name ch = strip_hash (strip_hash c)) ->
  let res := Slack.send_thread_reply c ts text w in
  calls (final res)
  = calls w ++ [ConversationsList; ChatPostMessage (strip_hash c) text ts] /\
  outcome res
  = match chat_postMessage_at w (S (length (calls w))) (strip_hash c) text ts with
    | Ret (Some reply_ts) => Ret (Some reply_ts)
    | Ret None => Raise AttributeError
    | Raise e => Raise e
    end.
Proof.
  intros Hl Hts Hex res. subst res. rewrite send_thread_reply_eq, Hl.
  apply listed_not_None in Hex.
  rewrite bool_decide_eq_true_2 by done. rewrite Hts. simpl.
  split; [by rewrite <- app_assoc|].
  by rewrite length_app, Nat.add_1_r.
Qed.

Lemma send_thread_reply_posts_in_thread_witness :
  outcome (Slack.send_thread_reply "##general" (Some "1700000000.000100")
             "reply" mute_client) = Raise AttributeError /\
  calls (final (Slack.send_thread_reply "##general" (Some "1700000000.000100")
                  "reply" mute_client))
  = [ConversationsList;
     ChatPostMessage "#general" "reply" (Some "1700000000.000100")].
Proof.
  assert (Hex : exists ch, ch ∈ [mkChannel "general" "C01"]
                           /\ name ch = strip_hash (strip_hash "##general")).
  { exists (mkChannel "general" "C01"). split; [apply list_elem_of_here|done]. }
  destruct (send_thread_reply_posts_in_thread mute_client "##general" "reply"
              (Some "1700000000.000100") _ eq_refl eq_refl Hex) as [H1 H2].
  split; [exact H2|exact H1].
Defined.

(** *** Editing *)

(** X12. Without a message identifier ([message_ts] None or empty)
    [edit_message] raises: the listing is its only request, so nothing is
    updated, and nothing is printed; what it raises is a ValueError
    whenever the listing is answered, the listing's exception otherwise. *)
Theorem edit_message_requires_message_ts
  (w : Client) (c text : string) (ts : option string) :
  ts = None \/ ts = Some "" ->
  let res := Slack.edit_message c ts text w in
  (exists e, outcome res = Raise e /\
     (forall l, conversations_list_at w (length (calls w)) = Ret l ->
                exists msg, e = ValueError msg) /\
     (forall e', conversations_list_at w (length (calls w)) = Raise e' ->
                 e = e')) /\
  calls (final res) = calls w ++ [ConversationsList] /\
  stdout (final res) = stdout w.
Proof.
  intros Hts res. apply truthy_false in Hts. subst res.
  rewrite edit_message_eq.
  destruct (conversations_list_at w (length (calls w))) as [l|e0].
  - destruct (bool_decide _); rewrite ?Hts; simpl.
    + split; [|done]. eexists. split; [done|]. split; [by eexists|done].
    + split; [|done]. eexists. split; [done|]. split; [by eexists|done].
  - simpl. split; [|done]. exists e0. split; [done|]. split; [done|].
    by intros e' [= ->].
Qed.

Lemma edit_message_requires_message_ts_witness :
  outcome (Slack.edit_message "#general" (Some "") "done" usual_client)
  = Raise (ValueError "message_ts is required") /\
  calls (final (Slack.edit_message "#general" None "done" usual_client))
  = [ConversationsList].
Proof.
  split.
  - destruct (edit_message_requires_message_ts usual_client "#general" "done"
                (Some "") (or_intror eq_refl)) as [(e & He & _) _].
    rewrite He. by injection He as <-.
  - exact (proj1 (proj2 (edit_message_requires_message_ts usual_client
                           "#general" "done" None (or_introl eq_refl)))).
Defined.

(** X13. With a message identifier and the channel found at the first
    listing, [edit_message] lists the channels again and goes by the
    second answer: when it has the channel, with a non-empty id, the update
    is sent to that id and the call returns or raises what the update does,
    printing nothing; when it has the channel no more, the call prints that
    the channel was not found, returns False and sends no update. *)
Theorem edit_message_goes_by_second_listing
  (w : Client) (c text : string) (ts : option string) (l l2 : list Channel) :
  let n := length (calls w) in
  let res := Slack.edit_message c ts text w in
  conversations_list_at w n = Ret l ->
  conversations_list_at w (S n) = Ret l2 ->
  truthy ts = true ->
  (exists ch, ch ∈ l /\ name ch = strip_hash (strip_hash c)) ->
  (forall cid, find_channel (strip_hash (strip_hash c)) l2 = Some cid ->
     cid <> "" ->
     calls (final res)
     = calls w ++ [ConversationsList; ConversationsList; ChatUpdate cid ts text] /\
     outcome res = chat_update_at w (S (S n)) cid ts text /\
     stdout (final res) = stdout w) /\
  ((forall ch, ch ∈ l2 -> name ch <> strip_hash (strip_hash c)) ->
   outcome res = Ret false /\
   calls (final res) = calls w ++ [ConversationsList; ConversationsList] /\
   stdout (final res)
   = stdout w ++ ["Error: Channel '" +:+ strip_hash c +:+ "' not found."]).
Proof.
  intros n res Hl Hl2 Hts Hex. subst res. rewrite edit_message_eq. fold n.
  rewrite Hl. apply listed_not_None in Hex.
  rewrite bool_decide_eq_true_2 by done. rewrite Hts. cbv zeta.
  rewrite !length_sent. fold n. rewrite Hl2. split.
  - intros cid Hf Hne. rewrite Hf, (truthy_Some _ Hne). simpl.
    split; [by rewrite <- !app_assoc|done].
  - intros Hno. apply find_channel_None in Hno. rewrite Hno. simpl.
    split; [done|]. split; [by rewrite <- !app_assoc|done].
Qed.

Lemma edit_message_goes_by_second_listing_witness :
  outcome (Slack.edit_message "general" (Some "1700000000.000100") "done"
             moving_client) = Ret false /\
  calls (final (Slack.edit_message "general" (Some "1700000000.000100") "done"
                  usual_client))
  = [ConversationsList; ConversationsList;
     ChatUpdate "C01" (Some "1700000000.000100") "done"].
Proof.
  assert (Hex : exists ch, ch ∈ [mkChannel "general" "C01"]
                           /\ name ch = strip_hash (strip_hash "general")).
  { exists (mkChannel "general" "C01"). split; [apply list_elem_of_here|done]. }
  split.
  - destruct (edit_message_goes_by_second_listing moving_client "general" "done"
                (Some "1700000000.000100") _ _ eq_refl eq_refl eq_refl Hex)
      as [_ H].
    refine (proj1 (H _)). intros ch Hin. by apply elem_of_nil in Hin.
  - assert (Hex' : exists ch, ch ∈ [mkChannel "general" "C01";
                                     mkChannel "eval-results" "C02"]
                              /\ name ch = strip_hash (strip_hash "general")).
    { exists (mkChannel "general" "C01"). split; [apply list_elem_of_here|done]. }
    destruct (edit_message_goes_by_second_listing usual_client "general" "done"
                (Some "1700000000.000100") _ _ eq_refl eq_refl eq_refl Hex')
      as [H _].
    refine (proj1 (H "C01" eq_refl _)). discriminate.
Defined.

(** *** Uploading *)

Lemma send_file_eq c f ic (w : FileClient) :
  send_file c f ic w =
  let after k := {| client := k (client w); uploads := uploads w;
                    files_upload_v2_at := files_upload_v2_at w |} in
  match conversations_list_at (client w) (length (calls (client w))) with
  | Raise e => (Raise e, after (sent ConversationsList))
  | Ret l =>
      if bool_decide (find_channel (strip_hash (strip_hash c)) l <> None) then
        match conversations_list_at (client w) (S (length (calls (client w)))) with
        | Raise e =>
            (Raise e, after (fun k => sent ConversationsList (sent ConversationsList k)))
        | Ret l2 =>
            let u := mkUpload (find_channel (strip_hash (strip_hash c)) l2) f ic in
            (files_upload_v2_at w (S (S (length (calls (client w)))) + length (uploads w)) u,
             {| client := sent ConversationsList (sent ConversationsList (client w));
                uploads := uploads w ++ [u];
                files_upload_v2_at := files_upload_v2_at w |})
        end
      else
        (Raise (ValueError ("Channel '" +:+ strip_hash c +:+ "' does not exist")),
         after (sent ConversationsList))
  end.
Proof.
  unfold send_file. fold (strip_hash c). cbv zeta.
  unfold mbind at 1, M_bind at 1. unfold on_client at 1.
  rewrite check_channel_exists_eq.
  destruct (conversations_list_at (client w) (length (calls (client w))))
    as [l|e0]; [|done].
  unfold outcome at 1, final at 1. cbn [fst snd].
  destruct (bool_decide _); cbn [negb]; cbv beta iota; [|done].
  unfold mbind at 1, M_bind at 1. unfold on_client. cbn [client].
  rewrite get_channel_id_eq. unfold outcome, final. cbn [fst snd].
  rewrite length_sent. cbn [conversations_list_at sent].
  destruct (conversations_list_at (client w) (S (length (calls (client w)))))
    as [l2|e2]; [|done].
  unfold files_upload_v2. run. cbn [client uploads files_upload_v2_at calls].
  rewrite !length_sent.
  by destruct (files_upload_v2_at w _ _).
Qed.

(** X14. With the listing answered, [send_file] uploads only when the
    channel is found, looked up by the given name without two leading "#":
    when no listed channel has that name it raises a ValueError and sends
    no upload; otherwise it lists the channels again and sends one upload,
    to the id the second answer gives for that name, None when the channel
    is no longer listed, and returns or raises what the upload does. *)
Theorem send_file_uploads_to_found_channel
  (w : FileClient) (c f ic : string) (l : list Channel) :
  let n := length (calls (client w)) in
  let res := send_file c f ic w in
  conversations_list_at (client w) n = Ret l ->
  ((forall ch, ch ∈ l -> name ch <> strip_hash (strip_hash c)) ->
   outcome res
   = Raise (ValueError ("Channel '" +:+ strip_hash c +:+ "' does not exist")) /\
   uploads (final res) = uploads w /\
   calls (client (final res)) = calls (client w) ++ [ConversationsList]) /\
  ((exists ch, ch ∈ l /\ name ch = strip_hash (strip_hash c)) ->
   forall l2, conversations_list_at (client w) (S n) = Ret l2 ->
     let u := mkUpload (find_channel (strip_hash (strip_hash c)) l2) f ic in
     uploads (final res) = uploads w ++ [u] /\
     calls (client (final res))
     = calls (client w) ++ [ConversationsList; ConversationsList] /\
     outcome res = files_upload_v2_at w (S (S n) + length (uploads w)) u).
Proof.
  intros n res Hl. subst res. rewrite send_file_eq. fold n. rewrite Hl. split.
  - intros Hno. apply find_channel_None in Hno.
    by rewrite bool_decide_eq_false_2 by (by rewrite Hno; intros []).
  - intros Hex l2 Hl2 u. apply listed_not_None in Hex.
    rewrite bool_decide_eq_true_2 by done. rewrite Hl2. simpl.
    split; [done|]. split; [by rewrite <- !app_assoc|done].
Qed.

Lemma send_file_uploads_to_found_channel_witness :
  uploads (final (send_file "#general" "media/image.png" "look"
                    (with_uploads twin_client)))
  = [mkUpload (Some "C01") "media/image.png" "look"] /\
  uploads (final (send_file "general" "media/image.png" "look"
                    (with_uploads moving_client)))
  = [mkUpload None "media/image.png" "look"] /\
  uploads (final (send_file "#nowhere" "media/image.png" "look"
                    (with_uploads usual_client))) = [].
Proof.
  split; [|split].
  - destruct (send_file_uploads_to_found_channel (with_uploads twin_client)
                "#general" "media/image.png" "look" _ eq_refl) as [_ H].
    refine (proj1 (H _ _ eq_refl)).
    exists (mkChannel "general" "C01"). split; [|done].
    apply list_elem_of_further, list_elem_of_here.
  - destruct (send_file_uploads_to_found_channel (with_uploads moving_client)
                "general" "media/image.png" "look" _ eq_refl) as [_ H].
    refine (proj1 (H _ _ eq_refl)).
    exists (mkChannel "general" "C01"). split; [apply list_elem_of_here|done].
  - destruct (send_file_uploads_to_found_channel (with_uploads usual_client)
                "#nowhere" "media/image.png" "look" _ eq_refl) as [H _].
    refine (proj1 (proj2 (H _))).
    intros ch Hin. repeat (apply elem_of_cons in Hin as [->|Hin]; [discriminate|]).
    by apply elem_of_nil in Hin.
Defined.

End SlackExtras.

(** * Properties of the legacy Slack class *)

Module LegacyExtras.
Import WebClient SlackSpec SlackFile MoreServices SlackProperties SlackExtras.

Section Repr.
Variable repr_names : list string -> string.

Lemma legacy_get_channel_id_eq c w :
  SlackLegacyRest._get_channel_id repr_names c w =
  match conversations_list_at w (length (calls w)) with
  | Ret l =>
      (Ret (find_channel (strip_hash c) l),
       printed (repr_names (name <$> l)) (sent ConversationsList w))
  | Raise (SlackApiError m) =>
      (Ret None, printed ("Error getting channel ID: " +:+ m)
                   (sent ConversationsList w))
  | Raise e => (Raise e, sent ConversationsList w)
  end.
Proof.
  unfold SlackLegacyRest._get_channel_id. fold (strip_hash c). run. simpl.
  destruct (conversations_list_at w (length (calls w))) as [l|e]; [done|].
  by destruct e.
Qed.

Lemma legacy_edit_message_eq c ts text w :
  SlackLegacyRest.edit_message repr_names c ts text w =
  let w1 := sent ConversationsList w in
  let not_found w' :=
    (Ret false, printed ("Error: Channel '" +:+ strip_hash c +:+ "' not found.") w') in
  match conversations_list_at w (length (calls w)) with
  | Ret l =>
      let w2 := printed (repr_names (name <$> l)) w1 in
      let channel_id := find_channel (strip_hash (strip_hash c)) l in
      if truthy channel_id then
        match chat_update_at w (S (length (calls w))) (default "" channel_id) ts text with
        | Ret ok => (Ret ok, sent (ChatUpdate (default "" channel_id) ts text) w2)
        | Raise (SlackApiError m) =>
            (Ret false,
             printed ("Error editing message in Slack: " +:+ m)
               (sent (ChatUpdate (default "" channel_id) ts text) w2))
        | Raise e => (Raise e, sent (ChatUpdate (default "" channel_id) ts text) w2)
        end
      else not_found w2
  | Raise (SlackApiError m) =>
      not_found (printed ("Error getting channel ID: " +:+ m) w1)
  | Raise e => (Raise e, w1)
  end.
Proof.
  unfold SlackLegacyRest.edit_message. fold (strip_hash c).
  unfold try_except. unfold mbind at 1, M_bind at 1.
  rewrite legacy_get_channel_id_eq.
  destruct (conversations_list_at w (length (calls w))) as [l|e].
  - cbv zeta. destruct (truthy _); cbn [negb]; cbv beta iota.
    + run. cbn [calls printed sent chat_update_at].
      rewrite length_app, Nat.add_1_r.
      destruct (chat_update_at w _ _ _ _) as [ok|e]; [done|]. by destruct e.
    + by run.
  - by destruct e.
Qed.

(** X15. The legacy [edit_message] raises no SlackApiError and reports a
    failed listing as a channel not found.  When the listing is refused
    with a SlackApiError, or answered without a channel of the given name
    less two leading "#", the call returns False and sends no update; when
    the channel is found with a non-empty id, the update is sent to that
    id, whatever [message_ts] is, and the call returns what the update
    answers, or False when the update is refused with a SlackApiError. *)
Theorem legacy_edit_message_returns_False
  (w : Client) (c text : string) (ts : option string) :
  let n := length (calls w) in
  let res := SlackLegacyRest.edit_message repr_names c ts text w in
  (forall m, outcome res <> Raise (SlackApiError m)) /\
  (forall m, conversations_list_at w n = Raise (SlackApiError m) ->
     outcome res = Ret false /\
     calls (final res) = calls w ++ [ConversationsList] /\
     stdout (final res)
     = stdout w ++ ["Error getting channel ID: " +:+ m;
                    "Error: Channel '" +:+ strip_hash c +:+ "' not found."]) /\
  (forall l, conversations_list_at w n = Ret l ->
     ((forall ch, ch ∈ l -> name ch <> strip_hash (strip_hash c)) ->
      outcome res = Ret false /\
      calls (final res) = calls w ++ [ConversationsList]) /\
     (forall cid, find_channel (strip_hash (strip_hash c)) l = Some cid ->
        cid <> "" ->
        calls (final res)
        = calls w ++ [ConversationsList; ChatUpdate cid ts text] /\
        outcome res
        = match chat_update_at w (S n) cid ts text with
          | Ret ok => Ret ok
          | Raise (SlackApiError _) => Ret false
          | Raise e => Raise e
          end)).
Proof.
  intros n res. subst res. rewrite legacy_edit_message_eq. fold n. cbv zeta.
  split; [|split].
  - intros m. destruct (conversations_list_at w n) as [l|e].
    + destruct (truthy _); [|done].
      destruct (chat_update_at w _ _ _ _) as [ok|e]; [done|]. by destruct e.
    + by destruct e.
  - intros m ->. simpl. split; [done|]. split; [done|].
    by rewrite <- app_assoc.
  - intros l ->. split.
    + intros Hno. apply find_channel_None in Hno. by rewrite Hno.
    + intros cid Hf Hne. rewrite Hf, (truthy_Some _ Hne). simpl.
      destruct (chat_update_at w (S n) cid ts text) as [ok|e]; simpl.
      * split; [by rewrite <- app_assoc|done].
      * destruct e; simpl; (split; [by rewrite <- app_assoc|done]).
Qed.

Lemma legacy_send_file_eq c f ic (w : FileClient) :
  SlackLegacyRest.send_file repr_names c f ic w =
  let listed := SlackLegacyRest._get_channel_id repr_names c (client w) in
  match outcome listed with
  | Raise (SlackApiError m) =>
      (Ret tt,
       {| client := printed ("Error sending file to Slack: " +:+ m) (final listed);
          uploads := uploads w; files_upload_v2_at := files_upload_v2_at w |})
  | Raise e =>
      (Raise e,
       {| client := final listed; uploads := uploads w;
          files_upload_v2_at := files_upload_v2_at w |})
  | Ret channel_id =>
      let u := mkUpload channel_id f ic in
      let sent_up c' :=
        {| client := c'; uploads := uploads w ++ [u];
           files_upload_v2_at := files_upload_v2_at w |} in
      match files_upload_v2_at w (length (calls (final listed)) + length (uploads w)) u with
      | Ret _ => (Ret tt, sent_up (final listed))
      | Raise (SlackApiError m) =>
          (Ret tt, sent_up (printed ("Error sending file to Slack: " +:+ m) (final listed)))
      | Raise e => (Raise e, sent_up (final listed))
      end
  end.
Proof.
  unfold SlackLegacyRest.send_file, try_except.
  unfold mbind at 1, M_bind at 1. unfold on_client at 1. cbv zeta.
  destruct (outcome (SlackLegacyRest._get_channel_id repr_names c (client w)))
    as [cid|e].
  - unfold files_upload_v2. run. cbn [client uploads files_upload_v2_at].
    destruct (files_upload_v2_at w _ _) as [v|e]; [done|].
    destruct e; try done.
  - destruct e; try done.
Qed.

(** X16. The legacy [send_file] uploads without a channel.  When the
    listing is answered without a channel of the given name less one
    leading "#", or is refused with a SlackApiError, the call still sends
    one upload, with no channel id; and it raises no SlackApiError, whether
    the listing or the upload is refused. *)
Theorem legacy_send_file_uploads_without_channel
  (w : FileClient) (c f ic : string) :
  let n := length (calls (client w)) in
  let res := SlackLegacyRest.send_file repr_names c f ic w in
  (forall m, outcome res <> Raise (SlackApiError m)) /\
  (forall l, conversations_list_at (client w) n = Ret l ->
     uploads (final res)
     = uploads w ++ [mkUpload (find_channel (strip_hash c) l) f ic]) /\
  (forall l, conversations_list_at (client w) n = Ret l ->
     (forall ch, ch ∈ l -> name ch <> strip_hash c) ->
     uploads (final res) = uploads w ++ [mkUpload None f ic]) /\
  (forall m, conversations_list_at (client w) n = Raise (SlackApiError m) ->
     uploads (final res) = uploads w ++ [mkUpload None f ic]).
Proof.
  intros n res. subst res. rewrite legacy_send_file_eq. cbv zeta.
  rewrite legacy_get_channel_id_eq. fold n.
  split; [|split; [|split]].
  - intros m. destruct (conversations_list_at (client w) n) as [l|e]; simpl.
    + destruct (files_upload_v2_at w _ _) as [v|e]; [done|]. by destruct e.
    + destruct e; simpl; try done.
      destruct (files_upload_v2_at w _ _) as [v|e]; [done|]. by destruct e.
  - intros l Hl. rewrite Hl. simpl.
    destruct (files_upload_v2_at w _ _) as [v|e]; [done|]. by destruct e.
  - intros l Hl Hno. rewrite Hl. simpl. apply find_channel_None in Hno.
    rewrite Hno. destruct (files_upload_v2_at w _ _) as [v|e]; [done|].
    by destruct e.
  - intros m Hl. rewrite Hl. simpl.
    destruct (files_upload_v2_at w _ _) as [v|e]; [done|]. by destruct e.
Qed.

End Repr.

Lemma legacy_edit_message_returns_False_witness :
  outcome (SlackLegacyRest.edit_message plain_repr "#general"
             (Some "1700000000.000100") "done" refusing_client) = Ret false /\
  calls (final (SlackLegacyRest.edit_message plain_repr "#general" None "done"
                  usual_client))
  = [ConversationsList; ChatUpdate "C01" None "done"].
Proof.
  split.
  - destruct (legacy_edit_message_returns_False plain_repr refusing_client
                "#general" "done" (Some "1700000000.000100")) as (_ & H & _).
    exact (proj1 (H "ratelimited" eq_refl)).
  - destruct (legacy_edit_message_returns_False plain_repr usual_client
                "#general" "done" None) as (_ & _ & H).
    destruct (H _ eq_refl) as [_ H2].
    refine (proj1 (H2 "C01" eq_refl _)). discriminate.
Defined.

Lemma legacy_send_file_uploads_without_channel_witness :
  uploads (final (SlackLegacyRest.send_file plain_repr "#nowhere"
                    "media/image.png" "look" (with_uploads usual_client)))
  = [mkUpload None "media/image.png" "look"] /\
  uploads (final (SlackLegacyRest.send_file plain_repr "#general"
                    "media/image.png" "look" (with_uploads refusing_client)))
  = [mkUpload None "media/image.png" "look"].
Proof.
  split.
  - destruct (legacy_send_file_uploads_without_channel plain_repr
                (with_uploads usual_client) "#nowhere" "media/image.png" "look")
      as (_ & _ & H & _).
    refine (H _ eq_refl _).
    intros ch Hin. repeat (apply elem_of_cons in Hin as [->|Hin]; [discriminate|]).
    by apply elem_of_nil in Hin.
  - destruct (legacy_send_file_uploads_without_channel plain_repr
                (with_uploads refusing_client) "#general" "media/image.png" "look")
      as (_ & _ & _ & H).
    exact (H "ratelimited" eq_refl).
Defined.

(** X17. The legacy class posts unchecked.  [send_thread_reply] sends one
    post and no other request, to the given name without one leading "#"
    and with the [thread_ts] given, None and the empty string included;
    [send_message] does the same without a thread.  Neither raises a
    SlackApiError: when the post is refused with one, the call prints the
    error and returns None; otherwise it returns the "ts" of the answer. *)
Theorem legacy_posts_unchecked
  (w : Client) (c text : string) (ts : option string) :
  let n := length (calls w) in
  let reply := SlackLegacyRest.send_thread_reply c ts text w in
  let message := SlackLegacy.send_message c text w in
  (calls (final reply) = calls w ++ [ChatPostMessage (strip_hash c) text ts] /\
   (forall m, outcome reply <> Raise (SlackApiError m)) /\
   (forall v, chat_postMessage_at w n (strip_hash c) text ts = Ret v ->
      outcome reply = Ret v /\ stdout (final reply) = stdout w) /\
   (forall m, chat_postMessage_at w n (strip_hash c) text ts = Raise (SlackApiError m) ->
      outcome reply = Ret None /\
      stdout (final reply)
      = stdout w ++ ["Error sending thread reply to Slack: " +:+ m])) /\
  (calls (final message) = calls w ++ [ChatPostMessage (strip_hash c) text None] /\
   (forall m, outcome message <> Raise (SlackApiError m)) /\
   (forall v, chat_postMessage_at w n (strip_hash c) text None = Ret v ->
      outcome message = Ret v /\ stdout (final message) = stdout w) /\
   (forall m, chat_postMessage_at w n (strip_hash c) text None = Raise (SlackApiError m) ->
      outcome message = Ret None /\
      stdout (final message)
      = stdout w ++ ["Error sending message to Slack: " +:+ m])).
Proof.
  intros n reply message. subst reply message.
  unfold SlackLegacyRest.send_thread_reply, SlackLegacy.send_message.
  fold (strip_hash c). run. simpl. fold n. split.
  - destruct (chat_postMessage_at w n (strip_hash c) text ts) as [v|e].
    + simpl. split; [done|]. split; [done|]. split; [|done].
      by intros v' [= ->].
    + destruct e; simpl; (split; [done|]; split; [done|]; split; [done|]);
        try done. by intros m [= ->].
  - destruct (chat_postMessage_at w n (strip_hash c) text None) as [v|e].
    + simpl. split; [done|]. split; [done|]. split; [|done].
      by intros v' [= ->].
    + destruct e; simpl; (split; [done|]; split; [done|]; split; [done|]);
        try done. by intros m [= ->].
Qed.

Lemma legacy_posts_unchecked_witness :
  calls (final (SlackLegacyRest.send_thread_reply "#general" None "reply"
                  usual_client))
  = [ChatPostMessage "general" "reply" None] /\
  outcome (SlackLegacyRest.send_thread_reply "#general" None "reply"
             refusing_client) = Ret None.
Proof.
  split.
  - exact (proj1 (proj1 (legacy_posts_unchecked usual_client "#general" "reply" None))).
  - destruct (legacy_posts_unchecked refusing_client "#general" "reply" None)
      as [(_ & _ & _ & H) _].
    exact (proj1 (H "ratelimited" eq_refl)).
Defined.

End LegacyExtras.

(** * Properties of the conftest functions *)

Module ConftestExtras.
Import WebClient SlackSpec MoreServices Conftest ConftestSpec TestSample
  TestSampleSpec SlackProperties SlackExtras.

Ltac run :=
  unfold cache_get, cache_set, os_path_exists in *;
  unfold mbind, M_bind, mret, M_ret, raise, try_except, effect, gets, modify in *.

(** *** The totals *)

Lemma increment_eq a1 a2 w :
  increment a1 a2 w =
  match total "parallel_add_total_1" w, total "parallel_add_total_2" w with
  | PInt t1, PInt t2 =>
      (Ret tt,
       locked_once "parallel_add_totals.lock"
         (set_cache (fun m => <["parallel_add_total_2" := PInt (t2 + a2)]>
                                (<["parallel_add_total_1" := PInt (t1 + a1)]> m)) w))
  | _, _ =>
      (Raise (OtherError "TypeError"), locked_once "parallel_add_totals.lock" w)
  end.
Proof.
  unfold increment, with_FileLock, total, locked_once, py_add. run. simpl.
  destruct (cache w !! "parallel_add_total_1") as [[|t1|s1]|];
    destruct (cache w !! "parallel_add_total_2") as [[|t2|s2]|]; simpl;
    by destruct (lock_files_stay w).
Qed.

Lemma locked_once_obs lk w :
  slack (locked_once lk w) = slack w /\ cache (locked_once lk w) = cache w /\
  worker (locked_once lk w) = worker w /\
  lock_files_stay (locked_once lk w) = lock_files_stay w.
Proof.
  unfold locked_once. destruct (lock_files_stay w) eqn:E; simpl; by rewrite ?E.
Qed.

Lemma increment_ints a1 a2 w t1 t2 :
  total "parallel_add_total_1" w = PInt t1 ->
  total "parallel_add_total_2" w = PInt t2 ->
  exists w',
    increment a1 a2 w = (Ret tt, w') /\
    total "parallel_add_total_1" w' = PInt (t1 + a1) /\
    total "parallel_add_total_2" w' = PInt (t2 + a2) /\
    slack w' = slack w /\
    (forall k, k <> "parallel_add_total_1" -> k <> "parallel_add_total_2" ->
               cache w' !! k = cache w !! k).
Proof.
  intros H1 H2. rewrite increment_eq, H1, H2. eexists. split; [done|].
  destruct (locked_once_obs "parallel_add_totals.lock"
              (set_cache (fun m => <["parallel_add_total_2" := PInt (t2 + a2)]>
                                     (<["parallel_add_total_1" := PInt (t1 + a1)]> m)) w))
    as (Hs & Hc & _).
  unfold total. rewrite Hc, Hs. simpl.
  rewrite (lookup_insert_ne _ "parallel_add_total_2" "parallel_add_total_1")
    by discriminate.
  rewrite !lookup_insert_eq.
  repeat split; try done.
  intros k Hk1 Hk2. by rewrite !lookup_insert_ne.
Qed.

Lemma sum_permutation (l l' : list Z) :
  l ≡ₚ l' -> foldr Z.add 0%Z l = foldr Z.add 0%Z l'.
Proof. induction 1; simpl; lia. Qed.

Lemma increments_ints amounts : forall w t1 t2,
  total "parallel_add_total_1" w = PInt t1 ->
  total "parallel_add_total_2" w = PInt t2 ->
  outcome (increments amounts w) = Ret tt /\
  total "parallel_add_total_1" (final (increments amounts w))
  = PInt (t1 + sum1 amounts) /\
  total "parallel_add_total_2" (final (increments amounts w))
  = PInt (t2 + sum2 amounts) /\
  slack (final (increments amounts w)) = slack w /\
  (forall k, k <> "parallel_add_total_1" -> k <> "parallel_add_total_2" ->
             cache (final (increments amounts w)) !! k = cache w !! k).
Proof.
  induction amounts as [|[a1 a2] rest IH]; intros w t1 t2 H1 H2.
  - simpl. unfold sum1, sum2. simpl. rewrite !Z.add_0_r. by repeat split.
  - destruct (increment_ints a1 a2 w t1 t2 H1 H2) as (w' & Hi & H1' & H2' & Hs & Hk).
    destruct (IH w' _ _ H1' H2') as (Ho & Ht1 & Ht2 & Hs' & Hk').
    cbn [increments]. unfold mbind, M_bind. rewrite Hi.
    split; [done|]. split; [|split; [|split]].
    + rewrite Ht1. unfold sum1. rewrite fmap_cons. cbn [foldr fst].
      by rewrite Z.add_assoc.
    + rewrite Ht2. unfold sum2. rewrite fmap_cons. cbn [foldr snd].
      by rewrite Z.add_assoc.
    + by rewrite Hs'.
    + intros k Hk1 Hk2. by rewrite Hk', Hk.
Qed.

(** X18. The increments add up.  From totals that are ints (a missing
    total counts as 0), a sequence of increments returns and leaves each
    total at its start plus the sum of its amounts, touches no other key of
    the cache and sends nothing to Slack; so the totals do not depend on the
    order in which the increments ran. *)
Theorem increments_add_up (amounts : list (Z * Z)) (w : Session) (t1 t2 : Z) :
  let res := increments amounts w in
  total "parallel_add_total_1" w = PInt t1 ->
  total "parallel_add_total_2" w = PInt t2 ->
  outcome res = Ret tt /\
  total "parallel_add_total_1" (final res) = PInt (t1 + sum1 amounts) /\
  total "parallel_add_total_2" (final res) = PInt (t2 + sum2 amounts) /\
  slack (final res) = slack w /\
  (forall k, k <> "parallel_add_total_1" -> k <> "parallel_add_total_2" ->
             cache (final res) !! k = cache w !! k) /\
  (forall amounts', amounts' ≡ₚ amounts ->
     total "parallel_add_total_1" (final (increments amounts' w))
     = total "parallel_add_total_1" (final res) /\
     total "parallel_add_total_2" (final (increments amounts' w))
     = total "parallel_add_total_2" (final res)).
Proof.
  intros res H1 H2. subst res.
  destruct (increments_ints amounts w t1 t2 H1 H2) as (Ho & Ht1 & Ht2 & Hs & Hk).
  repeat (split; [done|]).
  intros amounts' Hp.
  destruct (increments_ints amounts' w t1 t2 H1 H2) as (_ & Ht1' & Ht2' & _).
  rewrite Ht1, Ht2, Ht1', Ht2'. unfold sum1, sum2.
  rewrite (sum_permutation _ _ (fmap_Permutation fst _ _ Hp)).
  by rewrite (sum_permutation _ _ (fmap_Permutation snd _ _ Hp)).
Qed.

Lemma increments_add_up_witness :
  total "parallel_add_total_1"
    (final (increments [(1, 2); (10, 20); (100, 200)]%Z (main_process usual_client)))
  = PInt 111 /\
  total "parallel_add_total_2"
    (final (increments [(100, 200); (1, 2); (10, 20)]%Z (main_process usual_client)))
  = PInt 222.
Proof.
  destruct (increments_add_up [(1, 2); (10, 20); (100, 200)]%Z
              (main_process usual_client) 0 0 eq_refl eq_refl)
    as (_ & H1 & H2 & _ & _ & Hp).
  split; [exact H1|].
  assert (Hperm : [(100, 200); (1, 2); (10, 20)]%Z
                  ≡ₚ [(1, 2); (10, 20); (100, 200)]%Z).
  { etrans; [apply Permutation_swap|]. apply Permutation_skip, Permutation_swap. }
  rewrite (proj2 (Hp _ Hperm)). exact H2.
Defined.

(** X19. An increment changes both totals or none.  When either cached
    total is not an int (None, or a str), the increment raises TypeError
    before it stores anything: the cache is as it was, though the lock was
    taken and released. *)
Theorem increment_is_all_or_nothing (a1 a2 : Z) (w : Session) :
  (forall t, total "parallel_add_total_1" w <> PInt t) \/
  (forall t, total "parallel_add_total_2" w <> PInt t) ->
  increment a1 a2 w
  = (Raise (OtherError "TypeError"), locked_once "parallel_add_totals.lock" w) /\
  cache (final (increment a1 a2 w)) = cache w.
Proof.
  intros H. rewrite increment_eq.
  assert (Hc : cache (locked_once "parallel_add_totals.lock" w) = cache w)
    by apply locked_once_obs.
  destruct (total "parallel_add_total_1" w) as [|t1|s1] eqn:E1;
    destruct (total "parallel_add_total_2" w) as [|t2|s2] eqn:E2;
    try done.
  destruct H as [H|H]; [by destruct (H t1)|by destruct (H t2)].
Qed.

Lemma increment_is_all_or_nothing_witness :
  cache (final (increment 1 2
                  (finishing usual_client PNone (PInt 5) PNone false)))
  = cache (finishing usual_client PNone (PInt 5) PNone false).
Proof.
  refine (proj2 (increment_is_all_or_nothing 1 2 _ (or_intror _))).
  intros t. discriminate.
Defined.

(** *** The thread *)

Lemma thread_ts_eq w :
  thread_ts w =
  match cached_ts w with
  | PNone =>
      let posted := Slack.send_message "eval-results" running_text (slack w) in
      match outcome posted with
      | Ret v =>
          (Ret (of_ts v),
           locked_once "slack_thread.lock"
             (set_cache <["thread_ts" := of_ts v]> (set_slack (final posted) w)))
      | Raise e =>
          (Raise e, locked_once "slack_thread.lock" (set_slack (final posted) w))
      end
  | v => (Ret v, locked_once "slack_thread.lock" w)
  end.
Proof.
  unfold thread_ts, with_FileLock, cached_ts, locked_once, on_slack, running_text.
  run. simpl.
  destruct (cache w !! "thread_ts") as [[|z|s]|]; simpl;
    try (by destruct (lock_files_stay w)).
  - destruct (outcome (Slack.send_message _ _ (slack w))); simpl;
      by destruct (lock_files_stay w).
  - destruct (outcome (Slack.send_message _ _ (slack w))); simpl;
      by destruct (lock_files_stay w).
Qed.

Lemma cached_ts_set v w :
  cached_ts (set_cache <["thread_ts" := v]> w) = v.
Proof. unfold cached_ts. simpl. by rewrite lookup_insert_eq. Qed.

(** X20. The fixture posts the header at most once.  With a value other
    than None cached, it returns that value, sends nothing and leaves the
    cache as it is; with None cached, or nothing, it sends the header to
    "eval-results", caches and returns the "ts" of the answer, or raises
    what [send_message] raises, the cache unchanged; and once it has
    returned a value other than None, the next call returns that value
    and sends nothing. *)
Theorem thread_ts_posts_header_once (w : Session) :
  let res := thread_ts w in
  let posted := Slack.send_message "eval-results" running_text (slack w) in
  (cached_ts w <> PNone ->
   outcome res = Ret (cached_ts w) /\ slack (final res) = slack w /\
   cache (final res) = cache w) /\
  (cached_ts w = PNone ->
   slack (final res) = final posted /\
   (forall v, outcome posted = Ret v ->
      outcome res = Ret (of_ts v) /\ cached_ts (final res) = of_ts v) /\
   (forall e, outcome posted = Raise e ->
      outcome res = Raise e /\ cache (final res) = cache w)) /\
  (forall v, outcome res = Ret v -> v <> PNone ->
     outcome (thread_ts (final res)) = Ret v /\
     slack (final (thread_ts (final res))) = slack (final res)).
Proof.
  intros res posted.
  assert (Hcached : forall w0, cached_ts w0 <> PNone ->
            outcome (thread_ts w0) = Ret (cached_ts w0) /\
            slack (final (thread_ts w0)) = slack w0 /\
            cache (final (thread_ts w0)) = cache w0).
  { intros w0 Hne. rewrite thread_ts_eq.
    destruct (locked_once_obs "slack_thread.lock" w0) as (Hs & Hc & _).
    by destruct (cached_ts w0). }
  assert (Hnone : cached_ts w = PNone ->
            slack (final res) = final posted /\
            (forall v, outcome posted = Ret v ->
               outcome res = Ret (of_ts v) /\ cached_ts (final res) = of_ts v) /\
            (forall e, outcome posted = Raise e ->
               outcome res = Raise e /\ cache (final res) = cache w)).
  { intros Hn. subst res. rewrite thread_ts_eq, Hn. cbv zeta. fold posted.
    destruct (outcome posted) as [v|e] eqn:Ho.
    - destruct (locked_once_obs "slack_thread.lock"
                  (set_cache <["thread_ts" := of_ts v]> (set_slack (final posted) w)))
        as (Hs & Hc & _).
      simpl. split; [by rewrite Hs|]. split; [|done].
      intros v' [= <-]. split; [done|].
      unfold cached_ts. rewrite Hc. simpl. by rewrite lookup_insert_eq.
    - destruct (locked_once_obs "slack_thread.lock" (set_slack (final posted) w))
        as (Hs & Hc & _).
      simpl. split; [by rewrite Hs|]. split; [done|].
      intros e' [= <-]. by rewrite Hc. }
  split; [apply Hcached|]. split; [exact Hnone|].
  intros v Hv Hne.
  assert (Hc : cached_ts (final res) = v).
  { destruct (decide (cached_ts w = PNone)) as [Hn|Hn].
    - destruct (Hnone Hn) as (_ & Hret & Hraise).
      destruct (outcome posted) as [v'|e] eqn:Ho.
      + destruct (Hret v' eq_refl) as [Hr Hcv]. congruence.
      + destruct (Hraise e eq_refl) as [Hr _]. congruence.
    - destruct (Hcached w Hn) as (Hr & _ & Hcc). fold res in Hr, Hcc.
      unfold cached_ts in *. rewrite Hcc. congruence. }
  destruct (Hcached (final res)) as (H1 & H2 & _); [by rewrite Hc|].
  by rewrite H1, H2, Hc.
Qed.

Lemma thread_ts_posts_header_once_witness :
  outcome (thread_ts (main_process usual_client))
  = Ret (PStr "1700000000.000100") /\
  calls (slack (final (thread_ts (final (thread_ts (main_process usual_client))))))
  = [ConversationsList;
     ChatPostMessage "eval-results" running_text None].
Proof.
  destruct (thread_ts_posts_header_once (main_process usual_client))
    as (_ & H2 & H3).
  destruct (H2 eq_refl) as (Hs & Hret & _).
  destruct (Hret (Some "1700000000.000100") eq_refl) as [Hout _].
  split; [exact Hout|].
  destruct (H3 _ Hout) as [_ Hs2]; [discriminate|].
  rewrite Hs2, Hs. reflexivity.
Defined.

(** *** The end of the session *)

Lemma remove_existing_cons x rest w :
  remove_existing (x :: rest) w
  = remove_existing rest (set_files (fun f => f ∖ {[x]}) w).
Proof.
  cbn [remove_existing]. unfold os_remove. run. simpl.
  destruct (bool_decide (x ∈ files w)) eqn:E; simpl; rewrite ?E; [done|].
  apply bool_decide_eq_false in E.
  assert (Hw : set_files (fun f => f ∖ {[x]}) w = w).
  { destruct w as [sl ca fi wo st]. unfold set_files. simpl in *.
    f_equal. apply difference_disjoint_L. by apply disjoint_singleton_r. }
  by rewrite Hw.
Qed.

Lemma remove_existing_locks w :
  remove_existing ["slack_thread.lock"; "parallel_add_totals.lock"] w
  = (Ret tt,
     set_files (fun f => f ∖ {["slack_thread.lock"]} ∖ {["parallel_add_totals.lock"]}) w).
Proof. by rewrite !remove_existing_cons. Qed.

Lemma pytest_sessionfinish_eq w :
  pytest_sessionfinish w =
  let clean w' :=
    set_files (fun f => f ∖ {["slack_thread.lock"]} ∖ {["parallel_add_totals.lock"]}) w' in
  let edit :=
    Slack.edit_message "eval-results" (as_ts (cached_ts w))
      (finished_text (total "parallel_add_total_1" w)
                     (total "parallel_add_total_2" w)) (slack w) in
  if worker w then (Ret tt, clean w)
  else if py_truth (cached_ts w) then
    match outcome edit with
    | Ret _ => (Ret tt, clean (set_slack (final edit) w))
    | Raise e => (Raise e, set_slack (final edit) w)
    end
  else (Ret tt, clean w).
Proof.
  unfold pytest_sessionfinish. unfold mbind at 1, M_bind at 1.
  cbv zeta.
  destruct (worker w) eqn:Ew.
  - unfold mbind at 1, M_bind at 1. unfold gets at 1. rewrite Ew. cbn [negb].
    unfold mret at 1, M_ret at 1. by rewrite remove_existing_locks.
  - unfold mbind at 1, M_bind at 1. unfold gets at 1. rewrite Ew. cbn [negb].
    unfold cached_ts, total, on_slack.
    unfold mbind, M_bind, cache_get, gets, mret, M_ret.
    destruct (py_truth _); [|by rewrite remove_existing_locks].
    destruct (outcome (Slack.edit_message _ _ _ (slack w))); [|done].
    by rewrite remove_existing_locks.
Qed.

(** X21. The end of the session.  On a worker, or with no thread cached
    (None, or a value that is false), nothing is sent to Slack and the two
    lock files are removed if they exist.  On the main process with a
    thread cached, the header is edited to the text that reports the two
    cached totals; the answer of the edit is not looked at, and the lock
    files are removed after it; but when the edit raises, the call raises
    the same and the lock files stay.  The cache is never changed. *)
Theorem sessionfinish_edits_then_cleans (w : Session) :
  let res := pytest_sessionfinish w in
  let edit :=
    Slack.edit_message "eval-results" (as_ts (cached_ts w))
      (finished_text (total "parallel_add_total_1" w)
                     (total "parallel_add_total_2" w)) (slack w) in
  let cleaned :=
    files w ∖ {["slack_thread.lock"]} ∖ {["parallel_add_totals.lock"]} in
  (worker w = true \/ py_truth (cached_ts w) = false ->
   outcome res = Ret tt /\ slack (final res) = slack w /\
   files (final res) = cleaned) /\
  (worker w = false -> py_truth (cached_ts w) = true ->
   slack (final res) = final edit /\
   (forall ok, outcome edit = Ret ok ->
      outcome res = Ret tt /\ files (final res) = cleaned) /\
   (forall e, outcome edit = Raise e ->
      outcome res = Raise e /\ files (final res) = files w)) /\
  cache (final res) = cache w.
Proof.
  intros res edit cleaned. subst res. rewrite pytest_sessionfinish_eq.
  cbv zeta. fold edit. split; [|split].
  - intros [Hw|Ht].
    + by rewrite Hw.
    + rewrite Ht. by destruct (worker w).
  - intros Hw Ht. rewrite Hw, Ht.
    destruct (outcome edit) as [ok|e]; simpl.
    + split; [done|]. split; [done|]. by intros e' [=].
    + split; [done|]. split; [by intros ok [=]|]. by intros e' [= ->].
  - destruct (worker w); [done|]. destruct (py_truth _); [|done].
    by destruct (outcome edit).
Qed.

Lemma sessionfinish_edits_then_cleans_witness :
  calls (slack (final (pytest_sessionfinish
                         (finishing usual_client (PStr "1700000000.000100")
                            (PInt 111) (PInt 222) true)))) = [] /\
  files (final (pytest_sessionfinish
                  (finishing usual_client (PStr "1700000000.000100")
                     (PInt 111) (PInt 222) false)))
  = {[ "slack_thread.lock"; "parallel_add_totals.lock"; "conftest.py" ]}
    ∖ {["slack_thread.lock"]} ∖ {["parallel_add_totals.lock"]} /\
  outcome (pytest_sessionfinish
             (finishing (service []) (PStr "1700000000.000100")
                (PInt 111) (PInt 222) false))
  = Raise (ValueError "Channel 'eval-results' does not exist").
Proof.
  split; [|split].
  - destruct (sessionfinish_edits_then_cleans
                (finishing usual_client (PStr "1700000000.000100")
                   (PInt 111) (PInt 222) true)) as [H _].
    destruct (H (or_introl eq_refl)) as (_ & Hs & _). by rewrite Hs.
  - destruct (sessionfinish_edits_then_cleans
                (finishing usual_client (PStr "1700000000.000100")
                   (PInt 111) (PInt 222) false)) as (_ & H & _).
    destruct (H eq_refl eq_refl) as (_ & Hok & _).
    exact (proj2 (Hok true eq_refl)).
  - destruct (sessionfinish_edits_then_cleans
                (finishing (service []) (PStr "1700000000.000100")
                   (PInt 111) (PInt 222) false)) as (_ & H & _).
    destruct (H eq_refl eq_refl) as (_ & _ & Hraise).
    exact (proj1 (Hraise _ eq_refl)).
Defined.

(** *** A whole session *)

Lemma increments_worker amounts : forall w,
  worker (final (increments amounts w)) = worker w.
Proof.
  induction amounts as [|[a1 a2] rest IH]; intros w; [done|].
  cbn [increments]. unfold mbind, M_bind. rewrite increment_eq.
  assert (Hl : forall lk w0, worker (locked_once lk w0) = worker w0)
    by (intros; apply locked_once_obs).
  destruct (total "parallel_add_total_1" w) as [|t1|s1];
    destruct (total "parallel_add_total_2" w) as [|t2|s2];
    try (simpl; apply Hl).
  by rewrite IH, Hl.
Qed.

Lemma accepting_send_message c text :
  accepting c ->
  exists ts,
    ts <> "" /\
    chat_postMessage_at c (S (length (calls c))) "eval-results" text None
    = Ret (Some ts) /\
    Slack.send_message "eval-results" text c
    = (Ret (Some ts),
       sent (ChatPostMessage "eval-results" text None) (sent ConversationsList c)).
Proof.
  intros (Hlist & Hpost & _).
  destruct (Hlist (length (calls c))) as (l & cid & Hl & Hf & Hne).
  destruct (Hpost (S (length (calls c))) "eval-results" text None)
    as (ts & Hp & Hts).
  exists ts. split; [done|]. split; [done|].
  rewrite send_message_eq, Hl.
  change (strip_hash "eval-results") with "eval-results".
  rewrite Hf, length_app. simpl. rewrite Nat.add_1_r. by rewrite Hp.
Qed.

Lemma accepting_edit_message c ts text :
  accepting c -> ts <> "" ->
  exists l cid ok,
    conversations_list_at c (S (length (calls c))) = Ret l /\
    find_channel "eval-results" l = Some cid /\
    Slack.edit_message "eval-results" (Some ts) text c
    = (Ret ok,
       sent (ChatUpdate cid (Some ts) text)
         (sent ConversationsList (sent ConversationsList c))).
Proof.
  intros (Hlist & _ & Hupd) Hts.
  destruct (Hlist (length (calls c))) as (l1 & cid1 & Hl1 & Hf1 & _).
  destruct (Hlist (S (length (calls c)))) as (l & cid & Hl & Hf & Hne).
  destruct (Hupd (S (S (length (calls c)))) cid (Some ts) text) as (ok & Hok).
  exists l, cid, ok. split; [done|]. split; [done|].
  rewrite edit_message_eq, Hl1.
  change (strip_hash (strip_hash "eval-results")) with "eval-results".
  rewrite Hf1, (truthy_Some _ Hts). cbv zeta.
  rewrite !length_sent, Hl, Hf, (truthy_Some _ Hne).
  cbn [default bool_decide]. simpl. by rewrite Hok.
Qed.

(** X22. What one process reports.  On the main process, over a service
    that at every request lists "eval-results" under a non-empty id,
    answers a post with a non-empty "ts" and answers an update: the
    configuration, the fixture, any increments and the end of the session
    make five requests, the header posted once and edited once under the
    "ts" its post was answered with, and the edit carries the sums of the
    amounts of the increments, whatever the cache held before; the lock
    files are gone at the end. *)
Theorem session_reports_the_sums (amounts : list (Z * Z)) (w : Session) :
  let res := session amounts w in
  let n := length (calls (slack w)) in
  accepting (slack w) ->
  worker w = false ->
  outcome res = Ret tt /\
  (exists ts cid l,
      chat_postMessage_at (slack w) (S n) "eval-results" running_text None
      = Ret (Some ts) /\
      conversations_list_at (slack w) (S (S (S n))) = Ret l /\
      find_channel "eval-results" l = Some cid /\
      calls (slack (final res))
      = calls (slack w) ++
        [ConversationsList;
         ChatPostMessage "eval-results" running_text None;
         ConversationsList; ConversationsList;
         ChatUpdate cid (Some ts)
           (finished_text (PInt (sum1 amounts)) (PInt (sum2 amounts)))]) /\
  ("slack_thread.lock" ∉ files (final res)) /\
  ("parallel_add_totals.lock" ∉ files (final res)).
Proof.
  intros res n Hacc Hwk. subst res.
  enough (exists wf, session amounts w = (Ret tt, wf) /\
            (exists ts cid l,
                chat_postMessage_at (slack w) (S n) "eval-results" running_text None
                = Ret (Some ts) /\
                conversations_list_at (slack w) (S (S (S n))) = Ret l /\
                find_channel "eval-results" l = Some cid /\
                calls (slack wf)
                = calls (slack w) ++
                  [ConversationsList;
                   ChatPostMessage "eval-results" running_text None;
                   ConversationsList; ConversationsList;
                   ChatUpdate cid (Some ts)
                     (finished_text (PInt (sum1 amounts)) (PInt (sum2 amounts)))]) /\
            ("slack_thread.lock" ∉ files wf) /\
            ("parallel_add_totals.lock" ∉ files wf))
    as (wf & -> & H).
  { by split. }
  unfold session.
  (* the configuration *)
  set (w1 := set_cache <["thread_ts" := PNone]>
               (set_cache <["parallel_add_total_2" := PInt 0]>
                  (set_cache <["parallel_add_total_1" := PInt 0]> w))).
  assert (Hc : pytest_configure w = (Ret tt, w1)) by done.
  (* the fixture *)
  destruct (accepting_send_message (slack w) running_text Hacc)
    as (ts & Hts & Hpost & Hsend).
  set (c2 := sent (ChatPostMessage "eval-results" running_text None)
               (sent ConversationsList (slack w))).
  set (w2 := locked_once "slack_thread.lock"
               (set_cache <["thread_ts" := PStr ts]> (set_slack c2 w1))).
  assert (Ht : thread_ts w1 = (Ret (PStr ts), w2)).
  { rewrite thread_ts_eq.
    assert (Hn : cached_ts w1 = PNone) by apply cached_ts_set.
    rewrite Hn. cbv zeta. change (slack w1) with (slack w).
    by rewrite Hsend. }
  destruct (locked_once_obs "slack_thread.lock"
              (set_cache <["thread_ts" := PStr ts]> (set_slack c2 w1)))
    as (Hs2 & Hc2 & Hw2 & _).
  fold w2 in Hs2, Hc2, Hw2. simpl in Hs2, Hc2, Hw2.
  (* the increments *)
  assert (H1 : total "parallel_add_total_1" w2 = PInt 0).
  { unfold total. rewrite Hc2.
    rewrite !lookup_insert_ne by discriminate. by rewrite lookup_insert_eq. }
  assert (H2 : total "parallel_add_total_2" w2 = PInt 0).
  { unfold total. rewrite Hc2.
    rewrite !lookup_insert_ne by discriminate. by rewrite lookup_insert_eq. }
  destruct (increments_ints amounts w2 0 0 H1 H2) as (Ho & Ht1 & Ht2 & Hs3 & Hk3).
  pose proof (increments_worker amounts w2) as Hw3.
  destruct (increments amounts w2) as [o3 w3] eqn:E3.
  simpl in Ho, Ht1, Ht2, Hs3, Hk3, Hw3.
  subst o3. rewrite !Z.add_0_l in *.
  (* the end of the session *)
  assert (Hcts : cached_ts w3 = PStr ts).
  { unfold cached_ts. rewrite Hk3 by discriminate. rewrite Hc2.
    by rewrite lookup_insert_eq. }
  assert (Hacc2 : accepting c2) by exact Hacc.
  destruct (accepting_edit_message c2 ts
              (finished_text (PInt (sum1 amounts)) (PInt (sum2 amounts)))
              Hacc2 Hts) as (l & cid & ok & Hl & Hf & Hedit).
  assert (Hfin : exists wf, pytest_sessionfinish w3 = (Ret tt, wf) /\
            slack wf
            = sent (ChatUpdate cid (Some ts)
                      (finished_text (PInt (sum1 amounts)) (PInt (sum2 amounts))))
                (sent ConversationsList (sent ConversationsList c2)) /\
            files wf = files w3 ∖ {["slack_thread.lock"]}
                         ∖ {["parallel_add_totals.lock"]}).
  { rewrite pytest_sessionfinish_eq. cbv zeta.
    rewrite Hw3, Hw2, Hwk, Hcts, Ht1, Ht2, Hs3, Hs2.
    assert (Htr : py_truth (PStr ts) = true).
    { simpl. by rewrite bool_decide_eq_false_2. }
    rewrite Htr. change (as_ts (PStr ts)) with (Some ts).
    rewrite Hedit. by eexists. }
  destruct Hfin as (wf & Hfin & Hsf & Hff).
  exists wf. split; [|split].
  - unfold mbind, M_bind. by rewrite Hc, Ht, E3, Hfin.
  - exists ts, cid, l. split; [exact Hpost|]. split.
    { unfold c2 in Hl. by rewrite !length_sent in Hl. }
    split; [exact Hf|].
    rewrite Hsf. unfold c2. simpl. by rewrite <- !app_assoc.
  - rewrite Hff. split.
    + intros Hin. apply elem_of_difference in Hin as [Hin _].
      apply elem_of_difference in Hin as [_ Hn]. apply Hn.
      by apply elem_of_singleton.
    + intros Hin. apply elem_of_difference in Hin as [_ Hn]. apply Hn.
      by apply elem_of_singleton.
Qed.

Lemma session_reports_the_sums_witness :
  calls (slack (final (session [(1, 2); (10, 20); (100, 200)]%Z
                         (main_process usual_client))))
  = [ConversationsList;
     ChatPostMessage "eval-results" running_text None;
     ConversationsList; ConversationsList;
     ChatUpdate "C02" (Some "1700000000.000100")
       (finished_text (PInt 111) (PInt 222))].
Proof.
  assert (Hacc : accepting (slack (main_process usual_client))).
  { split; [|split].
    - intros n. exists [mkChannel "general" "C01"; mkChannel "eval-results" "C02"], "C02".
      split; [reflexivity|]. split; [reflexivity|discriminate].
    - intros n channel text thread. exists "1700000000.000100".
      split; [reflexivity|discriminate].
    - intros n channel ts text. exists true. reflexivity. }
  destruct (session_reports_the_sums [(1, 2); (10, 20); (100, 200)]%Z
              (main_process usual_client) Hacc eq_refl)
    as (_ & (ts & cid & l & Hp & Hl & Hf & Hcalls) & _).
  rewrite Hcalls. injection Hp as <-. injection Hl as <-. by injection Hf as <-.
Defined.

(** *** The sample tests *)

Lemma pretty_N_go_length x : forall s,
  (String.length s <= String.length (pretty.pretty_N_go x s))%nat.
Proof.
  induction (N.lt_wf_0 x) as [x _ IH]; intros s.
  destruct (decide (x = 0)%N) as [->|Hx]; [by rewrite pretty.pretty_N_go_0|].
  rewrite pretty.pretty_N_go_step by lia.
  etrans; [|apply IH; apply N.div_lt; lia]. simpl. lia.
Qed.

Lemma pretty_pos_nonempty p : pretty.pretty (N.pos p) <> "".
Proof.
  unfold pretty.pretty, pretty.pretty_N. rewrite decide_False by done.
  rewrite pretty.pretty_N_go_step by lia. intros H.
  pose proof (pretty_N_go_length (N.pos p `div` 10)%N
                (String (pretty.pretty_N_char (N.pos p `mod` 10)) "")) as Hl.
  rewrite H in Hl. simpl in Hl. lia.
Qed.

(** The Slack methods take a cached value for true exactly when Python
    does. *)
Lemma truthy_as_ts v : truthy (as_ts v) = py_truth v.
Proof.
  destruct v as [|z|s]; simpl; [done| |by destruct s].
  destruct z as [|p|p]; simpl; [done| |done].
  change (pretty.pretty (Z.pos p)) with (pretty.pretty (N.pos p)).
  pose proof (pretty_pos_nonempty p) as Hne.
  by destruct (pretty.pretty (N.pos p)).
Qed.

Lemma reply_then_increment text a1 a2 :
  counts_after_reply
    (fun thread_ts =>
       on_slack (Slack.send_thread_reply "eval-results" (as_ts thread_ts)
                   (text thread_ts));;
       increment a1 a2)
    text a1 a2.
Proof.
  intros ts w reply.
  assert (Hraise : forall e, outcome reply = Raise e ->
            (on_slack (Slack.send_thread_reply "eval-results" (as_ts ts) (text ts));;
             increment a1 a2) w = (Raise e, set_slack (final reply) w)).
  { intros e He. unfold mbind, M_bind, on_slack. fold reply. by rewrite He. }
  split; [exact Hraise|]. split.
  - intros v Hv. unfold mbind, M_bind, on_slack. fold reply. by rewrite Hv.
  - intros Hf. rewrite <- truthy_as_ts in Hf.
    pose proof (send_thread_reply_falsy "eval-results" (as_ts ts) (text ts)
                  (slack w) Hf) as Heq.
    fold reply in Heq.
    assert (exists e, outcome reply = Raise e) as [e He].
    { rewrite Heq. simpl.
      destruct (conversations_list_at (slack w) _); by eexists. }
    exists e. rewrite (Hraise e He). simpl. split; [done|]. split; [done|].
    by rewrite Heq.
Qed.

(** X23. The sample tests count only after their reply.  Each of the three
    tests sends its reply first: when the reply raises, the test raises
    the same and the totals are as they were; when it returns, the test is
    the increment by (1, 2), (10, 20) or (100, 200); and with a thread
    value that is false (None when the header got no "ts") the reply
    raises with the channel listing as the one request made. *)
Theorem sample_tests_count_after_reply :
  counts_after_reply test_example1
    (fun thread_ts => "Reply " +:+ py_str thread_ts +:+ " 1" +:+ newline) 1 2 /\
  counts_after_reply test_example2 (fun _ => "Reply 2" +:+ newline) 10 20 /\
  counts_after_reply test_example3 (fun _ => "Reply 3" +:+ newline) 100 200.
Proof.
  split; [|split].
  - apply (reply_then_increment
             (fun thread_ts => "Reply " +:+ py_str thread_ts +:+ " 1" +:+ newline)).
  - apply (reply_then_increment (fun _ => "Reply 2" +:+ newline)).
  - apply (reply_then_increment (fun _ => "Reply 3" +:+ newline)).
Qed.

Lemma sample_tests_count_after_reply_witness :
  (exists e, outcome (test_example1 PNone (main_process usual_client)) = Raise e) /\
  total "parallel_add_total_2"
    (final (test_example2 (PStr "1700000000.000100") (main_process usual_client)))
  = PInt 20.
Proof.
  destruct sample_tests_count_after_reply as (H1 & H2 & _).
  split.
  - destruct (H1 PNone (main_process usual_client)) as (_ & _ & H).
    destruct (H eq_refl) as (e & He & _). by exists e.
  - destruct (H2 (PStr "1700000000.000100") (main_process usual_client))
      as (_ & H & _).
    rewrite (H (Some "1700000000.000100") eq_refl). reflexivity.
Defined.

End ConftestExtras.
